(** * adimap: ADIF parsing, Maidenhead conversion and coordinate resolution

    A shallow embedding of the data pipeline of the [adimap] package:
    [adif.parse_adif], [maidenhead.maidenhead_to_latlon], and, from
    [map_builder], [_parse_coord], [parse_latlon], [best_latlon] and the
    reduction loop at the head of [build_map]; then, around it,
    [dxcc.lookup_country], the home location of [cli.main], the centre
    of the map, the counting loop of [_stats_panel], and the loops of
    [build_map] that create the groups, the markers, the heat-map data
    and the legend.  What folium draws and what is written to files is
    not modelled.

    Conventions of the embedding.
    - A Python [str] is a list of Unicode code points ([list Z]).
    - A Python [float] is an IEEE 754 binary64 number: Rocq's primitive
      [float], with the same operations and the same rounding.
    - A Python [dict] with string keys is a [gmap (list Z) _].
    - A function that may leave through an exception returns a [result];
      [return] in the middle of a function body is the [Return] of [ctl].
    - The character tables ([isspace], [isalpha], [isdigit], [isdecimal],
      [upper_char]) are those of the Unicode database for U+0000..U+00FF,
      together with every white-space character and the two upper-case
      letters U+0178 and U+039C that [upper] reaches from there; any other
      code point above U+00FF is classified as neither letter nor digit
      and is its own upper case. *)

From Stdlib Require Import ZArith List Lia Bool String Ascii.
From Stdlib Require Import PrimFloat Uint63 FloatOps.
From stdpp Require Import gmap list.

Local Open Scope Z_scope.

(** ** Strings *)

Abbreviation pystr := (list Z).

(** A literal: the code points of an ASCII/Latin-1 Rocq string. *)
Definition str (s : string) : pystr :=
  map (fun a => Z.of_N (N_of_ascii a)) (list_ascii_of_string s).
Arguments str s%_string.

Definition between (lo hi c : Z) : bool := (lo <=? c) && (c <=? hi).

(** [str.isspace] on one character; also the characters [str.strip]
    removes. *)
Definition isspace (c : Z) : bool :=
  between 9 13 c || between 28 32 c || (c =? 133) || (c =? 160)
  || (c =? 5760) || between 8192 8202 c || (c =? 8232) || (c =? 8233)
  || (c =? 8239) || (c =? 8287) || (c =? 12288).

(** [str.isalpha] on one character. *)
Definition isalpha (c : Z) : bool :=
  between 65 90 c || between 97 122 c || (c =? 170) || (c =? 181)
  || (c =? 186) || between 192 214 c || between 216 246 c
  || between 248 255 c || (c =? 376) || (c =? 924).

(** Characters with a decimal value (category Nd): what [int] converts and
    what the regular expression [\d] matches. *)
Definition isdecimal (c : Z) : bool := between 48 57 c.

(** [str.isdigit] on one character: the decimal digits and, besides, the
    superscript digits U+00B2, U+00B3 and U+00B9, which [int] refuses. *)
Definition isdigit (c : Z) : bool :=
  isdecimal c || (c =? 178) || (c =? 179) || (c =? 185).

(** [str.upper] on one character; the result may be longer than one
    character (U+00DF) or leave Latin-1 (U+00B5, U+00FF). *)
Definition upper_char (c : Z) : pystr :=
  if between 97 122 c then [c - 32]
  else if c =? 181 then [924]
  else if c =? 223 then [83; 83]
  else if between 224 246 c || between 248 254 c then [c - 32]
  else if c =? 255 then [376]
  else [c].

Definition py_upper (s : pystr) : pystr := flat_map upper_char s.

Fixpoint lstrip_by (ws : Z -> bool) (s : pystr) : pystr :=
  match s with
  | c :: s' => if ws c then lstrip_by ws s' else s
  | [] => []
  end.

Definition rstrip_by (ws : Z -> bool) (s : pystr) : pystr :=
  rev (lstrip_by ws (rev s)).

Definition strip_by (ws : Z -> bool) (s : pystr) : pystr :=
  rstrip_by ws (lstrip_by ws s).

(** [s.strip()] *)
Definition py_strip (s : pystr) : pystr := strip_by isspace s.

(** [s.isdigit()]: every character a digit, and at least one character. *)
Definition str_isdigit (s : pystr) : bool :=
  negb (bool_decide (s = [])) && forallb isdigit s.

(** [s[i:j]] for [0 <= i <= j]. *)
Definition slice (s : pystr) (i j : nat) : pystr := take (j - i) (drop i s).

(** [ord(s[i])]; the callers check the length first. *)
Definition at_ (s : pystr) (i : nat) : Z := nth i s 0.

(** Truth value of a string: non-empty. *)
Definition truthy (s : pystr) : bool :=
  match s with
  | [] => false
  | _ :: _ => true
  end.

(** ** Control flow: exceptions and early return *)

Inductive exn := ValueError.

Inductive result (A : Type) :=
| Ret (a : A)
| Raise (e : exn).
Arguments Ret {A} a.
Arguments Raise {A} e.

(** A statement of a function body with return type [R]: it falls through
    with a value, returns from the function, or raises. *)
Inductive ctl (R A : Type) :=
| Next (a : A)
| Return (r : R)
| Throw (e : exn).
Arguments Next {R A} a.
Arguments Return {R A} r.
Arguments Throw {R A} e.

#[global] Instance ctl_bind {R} : MBind (ctl R) := fun A B k m =>
  match m with
  | Next a => k a
  | Return r => Return r
  | Throw e => Throw e
  end.

(** The body of a function that ends with [return]. *)
Definition run {R} (m : ctl R R) : result R :=
  match m with
  | Next r => Ret r
  | Return r => Ret r
  | Throw e => Raise e
  end.

(** [int(c)] for a one-character string. *)
Definition py_int_char {R} (c : Z) : ctl R Z :=
  if isdecimal c then Next (c - 48) else Throw ValueError.

(** ** Numbers *)

(** [float(z)] for an integer; exact when [|z| < 2^53]. *)
Definition float_of_Z (z : Z) : float :=
  if z <? 0 then PrimFloat.opp (PrimFloat.of_uint63 (Uint63.of_Z (- z)))
  else PrimFloat.of_uint63 (Uint63.of_Z z).

(** Python's arithmetic on a mix of [int] and [float]: an operation on two
    integers is exact, any other converts both operands to [float]. *)
Inductive num :=
| Int (z : Z)
| Flt (f : float).

Definition to_float (n : num) : float :=
  match n with
  | Int z => float_of_Z z
  | Flt f => f
  end.

Definition num_add (a b : num) : num :=
  match a, b with
  | Int x, Int y => Int (x + y)
  | _, _ => Flt (PrimFloat.add (to_float a) (to_float b))
  end.

Definition num_mul (a b : num) : num :=
  match a, b with
  | Int x, Int y => Int (x * y)
  | _, _ => Flt (PrimFloat.mul (to_float a) (to_float b))
  end.

(** [a / b], true division. *)
Definition num_div (a b : num) : num :=
  Flt (PrimFloat.div (to_float a) (to_float b)).

(** ** maidenhead.py *)

(** [maidenhead_to_latlon(grid)].  The [try] around the two [ord] calls
    never catches anything: [g] has at least two characters there, and
    [ord] of a character does not raise. *)
Definition maidenhead_to_latlon (grid : pystr)
  : result (option (float * float)) :=
  run (
    _ ← (if negb (truthy grid) then Return None else Next ());
    let g := py_upper (py_strip grid) in
    let n := length g in
    _ ← (if (n <? 2)%nat then Return None else Next ());
    let lon := Int ((at_ g 0 - 65) * 20 - 180) in
    let lat := Int ((at_ g 1 - 65) * 10 - 90) in
    '(lon, lat) ←
      (if (4 <=? n)%nat && str_isdigit (slice g 2 4) then
         d2 ← py_int_char (at_ g 2);
         let lon := num_add lon (num_mul (Int d2) (Int 2)) in
         d3 ← py_int_char (at_ g 3);
         let lat := num_add lat (num_mul (Int d3) (Int 1)) in
         Next (lon, lat)
       else if (3 <=? n)%nat then Return None
       else Next (lon, lat));
    '(lon, lat) ←
      (if (6 <=? n)%nat && isalpha (at_ g 4) && isalpha (at_ g 5) then
         let lon :=
           num_add lon (num_mul (Int (at_ g 4 - 65)) (num_div (Int 2) (Int 24))) in
         let lat :=
           num_add lat (num_mul (Int (at_ g 5 - 65)) (num_div (Int 1) (Int 24))) in
         Next (lon, lat)
       else if (n =? 5)%nat then Return None
       else Next (lon, lat));
    '(lon, lat) ←
      (if (8 <=? n)%nat && str_isdigit (slice g 6 8) then
         d6 ← py_int_char (at_ g 6);
         let lon := num_add lon (num_mul (Int d6) (num_div (Int 2) (Int 240))) in
         d7 ← py_int_char (at_ g 7);
         let lat := num_add lat (num_mul (Int d7) (num_div (Int 1) (Int 240))) in
         Next (lon, lat)
       else if (n =? 7)%nat then Return None
       else Next (lon, lat));
    let cell_lon := 20%float in
    let cell_lat := 10%float in
    let '(cell_lon, cell_lat) :=
      if (4 <=? n)%nat then (2%float, 1%float) else (cell_lon, cell_lat) in
    let '(cell_lon, cell_lat) :=
      if (6 <=? n)%nat then ((2 / 24)%float, (1 / 24)%float)
      else (cell_lon, cell_lat) in
    let '(cell_lon, cell_lat) :=
      if (8 <=? n)%nat then ((2 / 240)%float, (1 / 240)%float)
      else (cell_lon, cell_lat) in
    Next (Some (to_float (num_add lat (Flt (cell_lat / 2)%float)),
                to_float (num_add lon (Flt (cell_lon / 2)%float))))).

(** ** The builtin [float(str)]

    [float] applied to a string, as CPython defines it: white space is
    removed at both ends, an underscore may stand between two digits, and
    the rest is a signed decimal literal with optional fraction and
    exponent, or a signed [inf], [infinity] or [nan] in any letter case.
    The decimal value is rounded to the nearest binary64 number, ties to
    even.  [None] stands for [ValueError]. *)

(** White space [float] removes at the ends: ASCII white space, and any
    other white-space character, which it first turns into a blank. *)
Definition float_space (c : Z) : bool :=
  between 9 13 c || (c =? 32) || (isspace c && (127 <=? c)).

(** Underscores: allowed only after a digit and before a digit. *)
Fixpoint remove_underscores (prev : Z) (s : pystr) : option pystr :=
  match s with
  | [] => if prev =? 95 then None else Some []
  | c :: s' =>
      if c =? 95 then
        if isdecimal prev then remove_underscores c s' else None
      else if (prev =? 95) && negb (isdecimal c) then None
      else cons c <$> remove_underscores c s'
  end.

Fixpoint span (p : Z -> bool) (s : pystr) : pystr * pystr :=
  match s with
  | c :: s' => if p c then let '(a, b) := span p s' in (c :: a, b) else ([], s)
  | [] => ([], [])
  end.

Definition digits_value (ds : pystr) : Z :=
  fold_left (fun acc c => acc * 10 + (c - 48)) ds 0.

Definition parse_sign (s : pystr) : bool * pystr :=
  match s with
  | 45 :: r => (true, r)
  | 43 :: r => (false, r)
  | _ => (false, s)
  end.

(** An unsigned decimal literal, read whole: (mantissa, power of ten). *)
Definition parse_decimal (s : pystr) : option (Z * Z) :=
  let '(ip, r1) := span isdecimal s in
  let '(fp, r2) :=
    match r1 with
    | 46 :: r => span isdecimal r
    | _ => ([], r1)
    end in
  if bool_decide (ip ++ fp = []) then None
  else
    let m := digits_value (ip ++ fp) in
    let e := - Z.of_nat (length fp) in
    match r2 with
    | [] => Some (m, e)
    | c :: r3 =>
        if (c =? 101) || (c =? 69) then
          let '(eneg, r4) := parse_sign r3 in
          let '(ed, r5) := span isdecimal r4 in
          if bool_decide (ed = []) || negb (bool_decide (r5 = [])) then None
          else Some (m, e + (if eneg then - digits_value ed else digits_value ed))
        else None
    end.

(** Nearest integer to [n / d], ties to even ([0 <= n], [0 < d]). *)
Definition round_half_even (n d : Z) : Z :=
  let q := n / d in
  let r2 := 2 * (n mod d) in
  if r2 <? d then q
  else if d <? r2 then q + 1
  else if Z.even q then q else q + 1.

(** The binary64 number nearest to [n / d] ([0 < n], [0 < d]): the
    quotient is scaled to 53 significant bits (fewer in the subnormal
    range), rounded, and scaled back. *)
Definition float_of_ratio (n d : Z) : float :=
  let l := Z.log2 n - Z.log2 d in
  let ge_pow := if 0 <=? l then d * 2 ^ l <=? n else d <=? n * 2 ^ (- l) in
  let t := if ge_pow then l else l - 1 in
  let e := Z.max (t - 52) (-1074) in
  let q := if 0 <=? e then round_half_even n (d * 2 ^ e)
           else round_half_even (n * 2 ^ (- e)) d in
  Z.ldexp (PrimFloat.of_uint63 (Uint63.of_Z q)) e.

(** The binary64 number nearest to [m * 10 ^ e] ([0 <= m]). *)
Definition float_of_decimal (m e : Z) : float :=
  if m =? 0 then 0%float
  else if 0 <=? e then float_of_ratio (m * 10 ^ e) 1
  else float_of_ratio m (10 ^ (- e)).

Definition ascii_lower (c : Z) : Z := if between 65 90 c then c + 32 else c.

Definition py_float (s : pystr) : option float :=
  s ← remove_underscores 0 s;
  let s := strip_by float_space s in
  let '(neg, body) := parse_sign s in
  let signed (f : float) := if neg then PrimFloat.opp f else f in
  match parse_decimal body with
  | Some (m, e) => Some (signed (float_of_decimal m e))
  | None =>
      let w := map ascii_lower body in
      if bool_decide (w = str "inf") || bool_decide (w = str "infinity")
      then Some (signed infinity)
      else if bool_decide (w = str "nan") then Some nan
      else None
  end.

(** ** map_builder.py *)

(** [_parse_coord(text, is_lat)].  [text] is always a string here (the
    caller passes dictionary values), so the [text is None] test is not
    modelled.  The only exception [float] raises on a string is the
    [ValueError] the function catches. *)
Definition _parse_coord (text : pystr) (is_lat : bool) : option float :=
  let s := py_strip text in
  if negb (truthy s) then None
  else
    let suffix := if isalpha (List.last s 0) then upper_char (List.last s 0) else [] in
    let val_str := if truthy suffix then removelast s else s in
    match py_float val_str with
    | None => None
    | Some val =>
        val ← (if truthy suffix then
                 if bool_decide (suffix = str "N") || bool_decide (suffix = str "E")
                 then Some val
                 else if bool_decide (suffix = str "S") || bool_decide (suffix = str "W")
                 then Some (- val)%float
                 else None
               else Some val);
        if is_lat && negb ((-90 <=? val)%float && (val <=? 90)%float) then None
        else if negb is_lat && negb ((-180 <=? val)%float && (val <=? 180)%float)
        then None
        else Some val
    end.

Definition parse_latlon (lat_str lon_str : pystr) : option (float * float) :=
  let lat := _parse_coord lat_str true in
  let lon := _parse_coord lon_str false in
  match lat, lon with
  | Some lat, Some lon => Some (lat, lon)
  | _, _ => None
  end.

(** [a or b] on the results of two [dict.get] calls. *)
Definition py_or (a b : option pystr) : option pystr :=
  match a with
  | Some s => if truthy s then a else b
  | None => b
  end.

(** Truth value of the result of a [dict.get]: present and non-empty. *)
Definition truthy_opt (a : option pystr) : bool :=
  match a with
  | Some s => truthy s
  | None => false
  end.

(** A call of a function that may raise, inside a function body. *)
Definition call {R A} (r : result A) : ctl R A :=
  match r with
  | Ret a => Next a
  | Raise e => Throw e
  end.

Abbreviation entry := (gmap pystr pystr).

(** [best_latlon(entry)].  A non-[None] pair is a tuple of two elements,
    hence true. *)
Definition best_latlon (e : entry) : result (option (float * float * pystr)) :=
  run (
    let lat := e !! str "LAT" in
    let lon := e !! str "LON" in
    _ ← (match lat, lon with
         | Some la, Some lo =>
             if truthy la && truthy lo then
               match parse_latlon la lo with
               | Some pr => Return (Some (pr.1, pr.2, str "LATLON"))
               | None => Next ()
               end
             else Next ()
         | _, _ => Next ()
         end);
    let grid := py_or (e !! str "GRIDSQUARE") (e !! str "MY_GRIDSQUARE") in
    _ ← (match grid with
         | Some g =>
             if truthy g then
               pair2 ← call (maidenhead_to_latlon g);
               match pair2 with
               | Some pr2 => Return (Some (pr2.1, pr2.2, str "GRID"))
               | None => Next ()
               end
             else Next ()
         | None => Next ()
         end);
    Next None).

(** The first loop of [build_map]: the list [points] and the counter
    [skipped] after the records have been visited in order.  An exception
    of [best_latlon] leaves the loop and the function. *)
Definition build_map_step (st : list (float * float * entry) * Z) (rec : entry)
  : result (list (float * float * entry) * Z) :=
  let '(points, skipped) := st in
  match best_latlon rec with
  | Raise ex => Raise ex
  | Ret None => Ret (points, skipped + 1)
  | Ret (Some (lat, lon, _src)) => Ret (points ++ [(lat, lon, rec)], skipped)
  end.

Fixpoint for_each {S A} (body : S -> A -> result S) (st : S) (l : list A)
  : result S :=
  match l with
  | [] => Ret st
  | a :: l' =>
      match body st a with
      | Ret st' => for_each body st' l'
      | Raise ex => Raise ex
      end
  end.

Definition build_map_points (records : list entry)
  : result (list (float * float * entry) * Z) :=
  for_each build_map_step ([], 0) records.

(** ** adif.py

    The three regular expressions are embedded as the scanners they
    denote.  In [<eoh>] and [<eor>], compiled with [re.IGNORECASE], a
    letter of the pattern matches itself and its capital; no other
    character has [e], [o], [h] or [r] as its lower case. *)

Definition ci_eqb (p c : Z) : bool := (c =? p) || (ascii_lower c =? p).

(** The pattern matches at the very start of [s]. *)
Fixpoint starts_ci (pat s : pystr) : bool :=
  match pat, s with
  | [], _ => true
  | p :: pat', c :: s' => ci_eqb p c && starts_ci pat' s'
  | _ :: _, [] => false
  end.

(** [re.search(pat, s)]: the text after the leftmost match,
    [s[m.end():]], or [None] when there is no match. *)
Fixpoint search_ci (pat s : pystr) : option pystr :=
  if starts_ci pat s then Some (drop (length pat) s)
  else match s with
       | [] => None
       | _ :: s' => search_ci pat s'
       end.

(** [re.split(pat, s)] for a pattern without groups that matches
    [length pat > 0] characters: the pieces between the successive
    leftmost matches.  [skip] counts the characters of the current match
    still to pass over. *)
Fixpoint split_ci (pat : pystr) (skip : nat) (s : pystr) : list pystr :=
  match s with
  | [] => [[]]
  | c :: s' =>
      match skip with
      | S k => split_ci pat k s'
      | O =>
          if starts_ci pat s then [] :: split_ci pat (length pat - 1) s'
          else match split_ci pat 0 s' with
               | piece :: pieces => (c :: piece) :: pieces
               | [] => [[c]]
               end
      end
  end.

(** The class [[A-Za-z0-9_]]. *)
Definition is_name_char (c : Z) : bool :=
  between 65 90 c || between 97 122 c || between 48 57 c || (c =? 95).

(** One match of [field_pat]: a less-than sign, a name (group 1), a
    colon, decimal digits (group 2), optionally a colon and a type code
    without greater-than sign, a greater-than sign, and the value
    (group 3), which runs up to the next less-than sign. *)
Record field_match := {
  m_name : pystr;    (* group 1 *)
  m_length : pystr;  (* group 2 *)
  m_value : pystr;   (* group 3 *)
  m_size : nat       (* number of characters matched *)
}.

(** The field pattern at the very start of [s].  Each repetition is
    greedy and is followed by a character outside its class, so the
    longest run is the only one that can match. *)
Definition match_field (s : pystr) : option field_match :=
  match s with
  | 60 :: r0 =>
      let '(name, r1) := span is_name_char r0 in
      match name, r1 with
      | _ :: _, 58 :: r2 =>
          let '(ds, r3) := span isdecimal r2 in
          let tail :=
            match ds, r3 with
            | _ :: _, 62 :: r6 => Some (0%nat, r6)
            | _ :: _, 58 :: r4 =>
                let '(tc, r5) := span (fun c => negb (c =? 62)) r4 in
                match r5 with
                | 62 :: r6 => Some (S (length tc), r6)
                | _ => None
                end
            | _, _ => None
            end in
          '(ntc, r6) ← tail;
          let '(v, _) := span (fun c => negb (c =? 60)) r6 in
          Some {| m_name := name; m_length := ds; m_value := v;
                  m_size := (1 + length name + 1 + length ds + ntc + 1
                             + length v)%nat |}
      | _, _ => None
      end
  | _ => None
  end.

(** [field_pat.finditer(s)]: the successive leftmost matches. *)
Fixpoint finditer_field (skip : nat) (s : pystr) : list field_match :=
  match s with
  | [] => []
  | _ :: s' =>
      match skip with
      | S k => finditer_field k s'
      | O =>
          match match_field s with
          | Some m => m :: finditer_field (m_size m - 1) s'
          | None => finditer_field 0 s'
          end
      end
  end.

(** [int(s)] for a string of decimal digits.  (CPython's configurable
    cap on the number of digits [int] converts is not modelled.) *)
Definition py_int (ds : pystr) : Z := digits_value ds.

(** The body of the inner loop: [entry[name] = value.strip()]. *)
Definition store_field (e : entry) (m : field_match) : entry :=
  let name := py_upper (m_name m) in
  let length := py_int (m_length m) in
  let value := take (Z.to_nat length) (m_value m) in
  <[name := py_strip value]> e.

(** The body of the outer loop, for one piece of the split. *)
Definition parse_record (records : list entry) (raw : pystr) : list entry :=
  let raw := py_strip raw in
  if negb (truthy raw) then records
  else
    let e := fold_left store_field (finditer_field 0 raw) ∅ in
    if negb (bool_decide (e = ∅)) then records ++ [e] else records.

Definition eoh : pystr := str "<eoh>".
Definition eor : pystr := str "<eor>".

Definition parse_adif (content : pystr) : list entry :=
  let data :=
    match search_ci eoh content with
    | Some rest => rest
    | None => content
    end in
  let raw_recs := split_ci eor 0 data in
  fold_left parse_record raw_recs [].

(** ** Notions used in the statements *)

(** The range test at the end of [_parse_coord]. *)
Definition in_range (is_lat : bool) (v : float) : bool :=
  if is_lat then (-90 <=? v)%float && (v <=? 90)%float
  else (-180 <=? v)%float && (v <=? 180)%float.

Definition range_checked (is_lat : bool) (v : float) : option float :=
  if in_range is_lat v then Some v else None.

(** A well-formed coordinate string and its signed value: a number, or a
    number followed by one of the letters N, E (value as written) or
    S, W (value negated), in either letter case. *)
Inductive coord_value : pystr -> float -> Prop :=
| cv_plain s v :
    s <> [] -> isalpha (List.last s 0) = false -> py_float s = Some v ->
    coord_value s v
| cv_positive body c v :
    isalpha c = true -> upper_char c = str "N" \/ upper_char c = str "E" ->
    py_float body = Some v ->
    coord_value (body ++ [c]) v
| cv_negative body c m :
    isalpha c = true -> upper_char c = str "S" \/ upper_char c = str "W" ->
    py_float body = Some m ->
    coord_value (body ++ [c]) (- m)%float.

(** The grid-square string [best_latlon] looks at. *)
Definition grid_of (e : entry) : option pystr :=
  py_or (e !! str "GRIDSQUARE") (e !! str "MY_GRIDSQUARE").

(** What the loop of [build_map] appends for a record, if anything. *)
Definition resolved (rec : entry) : option (float * float * entry) :=
  match best_latlon rec with
  | Ret (Some (lat, lon, _)) => Some (lat, lon, rec)
  | _ => None
  end.

Definition is_absent (rec : entry) : bool :=
  match best_latlon rec with
  | Ret None => true
  | _ => false
  end.

Definition raises (rec : entry) : bool :=
  match best_latlon rec with
  | Raise _ => true
  | Ret _ => false
  end.

(** The part of [parse_adif] after the header has been removed. *)
Definition parse_data (data : pystr) : list entry :=
  fold_left parse_record (split_ci eor 0 data) [].

(** [m] is the marker [pat] in some letter case. *)
Definition spelling (pat m : pystr) : Prop := map ascii_lower m = pat.

(** Some letter-case spelling of [pat] occurs in [s]. *)
Definition occurs (pat s : pystr) : Prop :=
  exists a m b, s = a ++ m ++ b /\ spelling pat m.

(** A tag as it is written in a record: name, length digits, optional
    type code, and the text that follows up to the next tag. *)
Record tag := {
  t_name : pystr;
  t_length : pystr;
  t_type : option pystr;
  t_value : pystr
}.

(** The tag proper, up to its closing sign. *)
Definition tag_head (t : tag) : pystr :=
  60 :: t_name t ++ 58 :: t_length t
     ++ match t_type t with
        | Some tc => 58 :: tc
        | None => []
        end.

Definition render (t : tag) : pystr := tag_head t ++ 62 :: t_value t.

(** The name is a non-empty run of letters, digits and underscores, the
    length a non-empty run of decimal digits, the type code has no
    greater-than sign and the value no less-than sign. *)
Definition well_formed (t : tag) : bool :=
  truthy (t_name t) && forallb is_name_char (t_name t)
  && truthy (t_length t) && forallb isdecimal (t_length t)
  && forallb (fun c => negb (c =? 62)) (default [] (t_type t))
  && forallb (fun c => negb (c =? 60)) (t_value t).

(** The first LENGTH characters of the value, trimmed. *)
Definition stored (t : tag) : pystr :=
  py_strip (take (Z.to_nat (py_int (t_length t))) (t_value t)).

(** The tag with the white space at the end of its value removed. *)
Definition rstrip_value (t : tag) : tag :=
  {| t_name := t_name t; t_length := t_length t; t_type := t_type t;
     t_value := rstrip_by isspace (t_value t) |}.

(** Where the next tag may begin: at the end of the text or at a
    less-than sign. *)
Definition tag_boundary (rest : pystr) : Prop :=
  match rest with
  | [] => True
  | x :: _ => x = 60
  end.

Definition match_of (t : tag) : field_match :=
  {| m_name := t_name t; m_length := t_length t; m_value := t_value t;
     m_size := length (render t) |}.

(** The mapping the inner loop of [parse_adif] builds from a run of
    tags. *)
Definition entry_of (ts : list tag) : entry :=
  fold_left store_field (map match_of ts) ∅.

(** A record with a repeated name, a type code, a value shorter than
    its length and a length of zero:
    [<call:4>K1ABCD<note:9:S> hi <Call:2>W1AW  <z:0>junk ]. *)
Definition sample_call : tag :=
  {| t_name := str "call"; t_length := str "4"; t_type := None;
     t_value := str "K1ABCD" |}.
Definition sample_note : tag :=
  {| t_name := str "note"; t_length := str "9"; t_type := Some (str "S");
     t_value := str " hi " |}.
Definition sample_call2 : tag :=
  {| t_name := str "Call"; t_length := str "2"; t_type := None;
     t_value := str "W1AW  " |}.
Definition sample_z : tag :=
  {| t_name := str "z"; t_length := str "0"; t_type := None;
     t_value := str "junk " |}.
Definition sample_tags : list tag :=
  [sample_call; sample_note; sample_call2; sample_z].

(** ** Notions for the further properties *)

(** The characters of a key of a parsed record: capitals, digits and the
    underscore. *)
Definition is_key_char (c : Z) : bool :=
  between 65 90 c || between 48 57 c || (c =? 95).

(** A string that [strip] leaves as it is. *)
Definition trimmed (v : pystr) : Prop := py_strip v = v.

(** A string of ASCII characters. *)
Definition is_ascii (s : pystr) : bool :=
  forallb (fun c => (0 <=? c) && (c <? 128)) s.

(** What every record of [parse_adif] looks like: its keys are non-empty
    strings of capitals, digits and underscores; its values are trimmed
    and hold no less-than sign. *)
Definition key_ok (k : pystr) : Prop :=
  k <> [] /\ forallb is_key_char k = true.

Definition value_ok (v : pystr) : Prop :=
  trimmed v /\ forallb (fun c => negb (c =? 60)) v = true.

Definition fields_ok (e : entry) : Prop :=
  forall k v, e !! k = Some v -> key_ok k /\ value_ok v.

(** The normal form of a grid square: what [maidenhead_to_latlon] works
    on after [strip] and [upper]. *)
Definition grid_norm (grid : pystr) : pystr := py_upper (py_strip grid).

(** A grid square of a field and a square: two letters from A and two
    digits, given by their ranks. *)
Definition grid2 (f1 f2 : nat) : pystr :=
  [65 + Z.of_nat f1; 65 + Z.of_nat f2].

Definition grid4 (f1 f2 d1 d2 : nat) : pystr :=
  grid2 f1 f2 ++ [48 + Z.of_nat d1; 48 + Z.of_nat d2].

(** [v] is the middle of the interval from [lo] to [lo + size] degrees. *)
Definition centre_of (lo size : Z) (v : float) : bool :=
  (v =? float_of_Z (2 * lo + size) / 2)%float
  && (float_of_Z lo <=? v)%float && (v <=? float_of_Z (lo + size))%float.

(** The converter gives, for a grid square whose cell begins at
    ([lat0], [lon0]) and measures [h] by [w] degrees, the centre of the
    cell, and the centre is a valid coordinate. *)
Definition centre_ok (grid : pystr) (lat0 h lon0 w : Z) : bool :=
  match maidenhead_to_latlon grid with
  | Ret (Some (lat, lon)) =>
      centre_of lat0 h lat && centre_of lon0 w lon
      && in_range true lat && in_range false lon
  | _ => false
  end.


(** The grid square [best_latlon] would convert is made of ASCII
    characters, or there is none. *)
Definition grid_ascii (rec : entry) : bool :=
  match grid_of rec with
  | Some g => is_ascii g
  | None => true
  end.

(** Every character of every value of the record satisfies [p]. *)
Definition values_in (p : Z -> bool) (e : entry) : Prop :=
  forall k v, e !! k = Some v -> forallb p v = true.

(** ** dxcc.py *)

(** [PREFIX_COUNTRY], in the order of the dictionary display, which is the
    order [items()] yields. *)
Definition PREFIX_COUNTRY : list (pystr * pystr) :=
  [
    (str "K", str "United States");
    (str "N", str "United States");
    (str "W", str "United States");
    (str "AA", str "United States");
    (str "AB", str "United States");
    (str "AC", str "United States");
    (str "AD", str "United States");
    (str "AE", str "United States");
    (str "AF", str "United States");
    (str "AG", str "United States");
    (str "AI", str "United States");
    (str "AJ", str "United States");
    (str "AK", str "United States");
    (str "AL", str "United States");
    (str "VE", str "Canada");
    (str "VA", str "Canada");
    (str "VO", str "Canada");
    (str "VY", str "Canada");
    (str "XE", str "Mexico");
    (str "G", str "England");
    (str "M", str "England");
    (str "GM", str "Scotland");
    (str "GW", str "Wales");
    (str "GI", str "Northern Ireland");
    (str "GD", str "Isle of Man");
    (str "GU", str "Guernsey");
    (str "GJ", str "Jersey");
    (str "DL", str "Germany");
    (str "F", str "France");
    (str "I", str "Italy");
    (str "EA", str "Spain");
    (str "CT", str "Portugal");
    (str "OH", str "Finland");
    (str "SM", str "Sweden");
    (str "LA", str "Norway");
    (str "OZ", str "Denmark");
    (str "ON", str "Belgium");
    (str "PA", str "Netherlands");
    (str "OE", str "Austria");
    (str "OK", str "Czech Republic");
    (str "OM", str "Slovak Republic");
    (str "SP", str "Poland");
    (str "YU", str "Serbia");
    (str "S5", str "Slovenia");
    (str "9A", str "Croatia");
    (str "HA", str "Hungary");
    (str "YO", str "Romania");
    (str "LZ", str "Bulgaria");
    (str "SV", str "Greece");
    (str "JA", str "Japan");
    (str "7J", str "Japan");
    (str "7K", str "Japan");
    (str "7M", str "Japan");
    (str "VK", str "Australia");
    (str "ZL", str "New Zealand");
    (str "BY", str "China");
    (str "VR", str "Hong Kong");
    (str "HL", str "Korea");
    (str "BV", str "Taiwan");
    (str "9V", str "Singapore");
    (str "VU", str "India");
    (str "HS", str "Thailand");
    (str "PY", str "Brazil");
    (str "LU", str "Argentina");
    (str "CX", str "Uruguay");
    (str "CE", str "Chile");
    (str "ZS", str "South Africa");
    (str "SU", str "Egypt");
    (str "A4", str "Oman");
    (str "A6", str "UAE")
  ].

(** [s.startswith(pref)]. *)
Fixpoint startswith (s pref : pystr) : bool :=
  match pref, s with
  | [], _ => true
  | p :: pref', c :: s' => (c =? p) && startswith s' pref'
  | _ :: _, [] => false
  end.

(** The body of the loop of [lookup_country]: [best] is [None] or the
    pair kept so far. *)
Definition lookup_step (cs : pystr) (best : option (pystr * pystr))
    (item : pystr * pystr) : option (pystr * pystr) :=
  let '(pref, name) := item in
  if startswith cs pref
     && match best with
        | None => true
        | Some b => (length b.1 <? length pref)%nat
        end
  then Some (pref, name)
  else best.

(** [lookup_country] over a table of prefixes. *)
Definition lookup_in (table : list (pystr * pystr)) (callsign : option pystr)
  : option pystr :=
  match callsign with
  | Some c =>
      if negb (truthy c) then None
      else
        let cs := py_upper (py_strip c) in
        let best := fold_left (lookup_step cs) table None in
        match best with
        | Some b => Some b.2
        | None => None
        end
  | None => None
  end.

Definition lookup_country (callsign : option pystr) : option pystr :=
  lookup_in PREFIX_COUNTRY callsign.

(** [pref] is the longest prefix of [cs] among the keys of [table]. *)
Definition longest_prefix (table : list (pystr * pystr)) (cs pref : pystr)
  : Prop :=
  startswith cs pref = true
  /\ forall p n, In (p, n) table -> startswith cs p = true ->
       (length p <= length pref)%nat.

(** ** cli.py and the start of [build_map] *)

(** How a run can stop short: with an exception of the library that
    nothing catches, with [SystemExit] and its message, or with a
    division by zero. *)
Inductive failure :=
| Uncaught (e : exn)
| SystemExit (msg : pystr)
| ZeroDivisionError.

Inductive outcome (A : Type) :=
| Done (a : A)
| Stop (f : failure).
Arguments Done {A} a.
Arguments Stop {A} f.

#[global] Instance outcome_bind : MBind outcome := fun A B k m =>
  match m with
  | Done a => k a
  | Stop f => Stop f
  end.

(** The home location [main] hands to [build_map], from the options
    [--home-grid], [--home-lat] and [--home-lon] ([None] for an option
    that is not given). *)
Definition home_latlon_of (home_grid : option pystr)
    (home_lat home_lon : option float) : outcome (option (float * float)) :=
  if truthy_opt home_grid then
    match maidenhead_to_latlon (default [] home_grid) with
    | Raise e => Stop (Uncaught e)
    | Ret None =>
        Stop (SystemExit (str "Could not parse home grid: "
                          ++ default [] home_grid))
    | Ret (Some home) => Done (Some home)
    end
  else
    match home_lat, home_lon with
    | Some lat, Some lon =>
        if negb (in_range true lat && in_range false lon)
        then Stop (SystemExit (str "Home lat/lon out of range."))
        else Done (Some (lat, lon))
    | _, _ => Done None
    end.

(** [a / b]: a division by zero raises. *)
Definition truediv (a b : num) : outcome num :=
  if match b with
     | Int z => z =? 0
     | Flt f => (f =? 0)%float
     end
  then Stop ZeroDivisionError
  else Done (num_div a b).

(** [build_map] up to the centre of the map: the points, the counter of
    skipped records and the centre.  The built-in [sum] is a parameter:
    how it rounds a sum of floats depends on the version of Python. *)
Definition build_map_start (sum : list float -> num) (records : list entry)
    (home_latlon : option (float * float))
  : outcome (list (float * float * entry) * Z * (float * float)) :=
  match build_map_points records with
  | Raise e => Stop (Uncaught e)
  | Ret (points, skipped) =>
      if negb (bool_decide (points <> [])) && negb (bool_decide (is_Some home_latlon))
      then Stop (SystemExit
             (str "No plottable QSO locations found (no LAT/LON or GRIDSQUARE)."))
      else
        match home_latlon with
        | Some center => Done (points, skipped, center)
        | None =>
            let n := Int (Z.of_nat (length points)) in
            avg_lat ← truediv (sum (map (fun p => p.1.1) points)) n;
            avg_lon ← truediv (sum (map (fun p => p.1.2) points)) n;
            Done (points, skipped, (to_float avg_lat, to_float avg_lon))
        end
  end.

(** [main] from the text of the log to the centre of the map. *)
Definition main_start (sum : list float -> num) (content : pystr)
    (home_grid : option pystr) (home_lat home_lon : option float)
  : outcome (list (float * float * entry) * Z * (float * float)) :=
  let records := parse_adif content in
  home_latlon ← home_latlon_of home_grid home_lat home_lon;
  build_map_start sum records home_latlon.

(** ** The counts of the statistics panel *)

(** [(rec.get(key) or "").strip().upper()]: the band or the mode of a
    record as [build_map] and [_stats_panel] read it. *)
Definition attr (key : pystr) (rec : entry) : pystr :=
  py_upper (py_strip (match rec !! key with
                      | Some s => if truthy s then s else []
                      | None => []
                      end)).

(** [s or "OTHER"]. *)
Definition or_other (s : pystr) : pystr :=
  if truthy s then s else str "OTHER".

(** [d[k] = d.get(k, 0) + 1]. *)
Definition count_up (k : pystr) (d : gmap pystr Z) : gmap pystr Z :=
  <[k := default 0 (d !! k) + 1]> d.

(** The loop of [_stats_panel] that fills [by_band] and [by_mode]. *)
Definition count_step (st : gmap pystr Z * gmap pystr Z) (e : entry)
  : gmap pystr Z * gmap pystr Z :=
  let '(by_band, by_mode) := st in
  let b := or_other (attr (str "BAND") e) in
  let m := or_other (attr (str "MODE") e) in
  (count_up b by_band, count_up m by_mode).

Definition stats_counts (entries : list entry) : gmap pystr Z * gmap pystr Z :=
  fold_left count_step entries (∅, ∅).

(** The sum of the counts of a table. *)
Definition total_of (d : gmap pystr Z) : Z :=
  map_fold (fun _ v acc => v + acc) 0 d.

(** The number of the entries whose band or mode, under [key], carries
    the label. *)
Definition labelled (key label : pystr) (entries : list entry) : Z :=
  Z.of_nat (length (List.filter
    (fun e => bool_decide (or_other (attr key e) = label)) entries)).

(** ** The markers, their colours and the legend *)

(** [BAND_COLORS], [MODE_COLORS] and [DEFAULT_COLOR]. *)
Definition BAND_COLORS : list (pystr * pystr) :=
  [
    (str "160M", str "darkpurple");
    (str "80M", str "darkred");
    (str "60M", str "lightred");
    (str "40M", str "orange");
    (str "30M", str "beige");
    (str "20M", str "blue");
    (str "17M", str "lightblue");
    (str "15M", str "green");
    (str "12M", str "lightgreen");
    (str "10M", str "cadetblue");
    (str "6M", str "purple");
    (str "4M", str "pink");
    (str "2M", str "darkgreen");
    (str "1.25M", str "lightgray");
    (str "70CM", str "gray");
    (str "33CM", str "black");
    (str "23CM", str "darkblue")
  ].

Definition MODE_COLORS : list (pystr * pystr) :=
  [
    (str "SSB", str "blue");
    (str "CW", str "darkred");
    (str "FT8", str "green");
    (str "FT4", str "purple");
    (str "FM", str "orange");
    (str "RTTY", str "darkpurple");
    (str "AM", str "gray")
  ].

Definition DEFAULT_COLOR : pystr := str "gray".

(** [d.get(k, dflt)] on a dictionary display. *)
Fixpoint dict_get (d : list (pystr * pystr)) (k dflt : pystr) : pystr :=
  match d with
  | [] => dflt
  | (k', v) :: d' => if bool_decide (k' = k) then v else dict_get d' k dflt
  end.

(** The containers a marker is added to: the feature group of a band or
    of a mode, the cluster created inside such a group at its first
    marker, the cluster [QSOs] or the feature group [QSOs]. *)
Inductive group :=
| BandGroup (label : pystr)
| ModeGroup (label : pystr).

Inductive container :=
| Group (g : group)
| ClusterOf (g : group)
| BaseCluster
| BaseGroup.

Record marker := {
  mk_location : float * float;
  mk_color : pystr;
  mk_tooltip : pystr;
  mk_rec : entry;               (* the record of the popup *)
  mk_parent : option container  (* [None]: added to nothing *)
}.

(** The two loops that create the groups: the keys of [band_groups] (of
    [mode_groups]) in the order the groups are added to the map. *)
Definition add_group (key : pystr) (groups : list pystr)
    (p : float * float * entry) : list pystr :=
  let label := or_other (attr key p.2) in
  if bool_decide (label ∈ groups) then groups else groups ++ [label].

(** [if pair not in l: l.append(pair)]. *)
Definition add_once (pair : pystr * pystr) (l : list (pystr * pystr))
  : list (pystr * pystr) :=
  if bool_decide (pair ∈ l) then l else l ++ [pair].

(** [d.setdefault(k, []).append(x)]. *)
Definition heat_add (k : pystr) (x : float * float)
    (d : gmap pystr (list (float * float))) : gmap pystr (list (float * float)) :=
  <[k := default [] (d !! k) ++ [x]]> d.

(** What the loop over the points builds. *)
Record plot := {
  markers : list marker;
  by_band_colors : list (pystr * pystr);
  by_mode_colors : list (pystr * pystr);
  heat_data_all : list (float * float);
  heat_by_band : gmap pystr (list (float * float));
  heat_by_mode : gmap pystr (list (float * float))
}.

Definition plot_start : plot :=
  {| markers := []; by_band_colors := []; by_mode_colors := [];
     heat_data_all := []; heat_by_band := ∅; heat_by_mode := ∅ |}.

(** The body of the loop [for lat, lon, rec in points]. *)
Definition plot_step (use_band_layers use_mode_layers cluster : bool)
    (band_groups mode_groups : list pystr) (st : plot)
    (p : float * float * entry) : plot :=
  let '(lat, lon, rec) := p in
  let band := attr (str "BAND") rec in
  let mode := attr (str "MODE") rec in
  let color_band := dict_get BAND_COLORS band DEFAULT_COLOR in
  let color_mode := dict_get MODE_COLORS mode DEFAULT_COLOR in
  let color := if use_band_layers then color_mode else color_band in
  let color := if use_mode_layers then color_mode else color in
  let bands :=
    if truthy band then add_once (band, color_band) (by_band_colors st)
    else by_band_colors st in
  let modes :=
    if truthy mode then add_once (mode, color_mode) (by_mode_colors st)
    else by_mode_colors st in
  let tooltip := default (str "QSO") (rec !! str "CALL") in
  let parent :=
    if use_band_layers then
      if bool_decide (or_other band ∈ band_groups)
      then Some (BandGroup (or_other band)) else None
    else if use_mode_layers then
      if bool_decide (or_other mode ∈ mode_groups)
      then Some (ModeGroup (or_other mode)) else None
    else None in
  let place :=
    match parent with
    | Some g => if cluster then Some (ClusterOf g) else Some (Group g)
    | None =>
        if negb use_band_layers && negb use_mode_layers then
          if cluster then Some BaseCluster else Some BaseGroup
        else None
    end in
  {| markers := markers st
       ++ [{| mk_location := (lat, lon); mk_color := color;
              mk_tooltip := tooltip; mk_rec := rec; mk_parent := place |}];
     by_band_colors := bands;
     by_mode_colors := modes;
     heat_data_all := heat_data_all st ++ [(lat, lon)];
     heat_by_band := heat_add (or_other band) (lat, lon) (heat_by_band st);
     heat_by_mode := heat_add (or_other mode) (lat, lon) (heat_by_mode st) |}.

(** [build_map] from the choice of the grouping to the legend: the groups
    created, what the loop over the points builds, and the legend shown
    with its title. *)
Definition build_map_plot (layers_by_band layers_by_mode cluster : bool)
    (points : list (float * float * entry))
  : list pystr * list pystr * plot * (list (pystr * pystr) * pystr) :=
  let use_band_layers := layers_by_band in
  let use_mode_layers := layers_by_mode && negb layers_by_band in
  let band_groups :=
    if use_band_layers then fold_left (add_group (str "BAND")) points []
    else [] in
  let mode_groups :=
    if use_mode_layers then fold_left (add_group (str "MODE")) points []
    else [] in
  let st :=
    fold_left (plot_step use_band_layers use_mode_layers cluster
                 band_groups mode_groups) points plot_start in
  let legend :=
    if use_band_layers then (by_mode_colors st, str "Modes")
    else if use_mode_layers then (by_mode_colors st, str "Modes")
    else (by_band_colors st, str "Bands") in
  (band_groups, mode_groups, st, legend).

(** The band or the mode of a record, whichever the legend with the
    given title is about. *)
Definition legend_attr (title : pystr) (rec : entry) : pystr :=
  if bool_decide (title = str "Modes") then attr (str "MODE") rec
  else attr (str "BAND") rec.

(** The colour of the marker of a record: by mode when the markers are
    grouped in layers, by band otherwise. *)
Definition color_of (layers_by_band layers_by_mode : bool) (rec : entry)
  : pystr :=
  if layers_by_band || layers_by_mode
  then dict_get MODE_COLORS (attr (str "MODE") rec) DEFAULT_COLOR
  else dict_get BAND_COLORS (attr (str "BAND") rec) DEFAULT_COLOR.

(** The container the marker of a record belongs to. *)
Definition container_of (layers_by_band layers_by_mode cluster : bool)
    (rec : entry) : container :=
  let inside g := if cluster then ClusterOf g else Group g in
  if layers_by_band then
    inside (BandGroup (or_other (attr (str "BAND") rec)))
  else if layers_by_mode then
    inside (ModeGroup (or_other (attr (str "MODE") rec)))
  else if cluster then BaseCluster else BaseGroup.

Definition marker_of (layers_by_band layers_by_mode cluster : bool)
    (p : float * float * entry) : marker :=
  {| mk_location := p.1;
     mk_color := color_of layers_by_band layers_by_mode p.2;
     mk_tooltip := default (str "QSO") (p.2 !! str "CALL");
     mk_rec := p.2;
     mk_parent := Some (container_of layers_by_band layers_by_mode cluster p.2) |}.

(** What the loop body does to one of the two lists of the legend. *)
Definition legend_step (key : pystr) (table : list (pystr * pystr))
    (l : list (pystr * pystr)) (p : float * float * entry)
  : list (pystr * pystr) :=
  let a := attr key p.2 in
  if truthy a then add_once (a, dict_get table a DEFAULT_COLOR) l else l.
(** * Properties *)

(** ** Strings *)

Lemma truthy_app_single (b : pystr) (c : Z) : truthy (b ++ [c]) = true.
Proof. destruct b; reflexivity. Qed.

Lemma truthy_true (s : pystr) : s <> [] -> truthy s = true.
Proof. destruct s; [congruence | reflexivity]. Qed.

Lemma truthy_upper_char (c : Z) : truthy (upper_char c) = true.
Proof.
  unfold upper_char.
  repeat match goal with |- context [if ?b then _ else _] => destruct b end;
    reflexivity.
Qed.

(** ** [_parse_coord] *)

Lemma range_test_eq (is_lat : bool) (val : float) :
  (if is_lat && negb ((-90 <=? val)%float && (val <=? 90)%float) then None
   else if negb is_lat && negb ((-180 <=? val)%float && (val <=? 180)%float)
   then None else Some val) = range_checked is_lat val.
Proof.
  unfold range_checked, in_range.
  destruct is_lat; simpl;
    repeat match goal with |- context [PrimFloat.leb ?a ?b] =>
      destruct (PrimFloat.leb a b) end; reflexivity.
Qed.

(** A string without letter at the end is parsed whole. *)
Lemma parse_coord_plain (text : pystr) (is_lat : bool) :
  py_strip text <> [] -> isalpha (List.last (py_strip text) 0) = false ->
  _parse_coord text is_lat = py_float (py_strip text) ≫= range_checked is_lat.
Proof.
  intros Hne Hlast. unfold _parse_coord.
  rewrite (truthy_true _ Hne), Hlast. simpl.
  destruct (py_float (py_strip text)) as [val|]; [|reflexivity].
  simpl. apply range_test_eq.
Qed.

(** A string with a letter at the end: the letter decides the sign, or
    fails the parse. *)
Lemma parse_coord_letter (text : pystr) (is_lat : bool) (body : pystr) (c : Z) :
  py_strip text = body ++ [c] -> isalpha c = true ->
  _parse_coord text is_lat =
    val ← py_float body;
    val ← (if bool_decide (upper_char c = str "N")
              || bool_decide (upper_char c = str "E") then Some val
           else if bool_decide (upper_char c = str "S")
                   || bool_decide (upper_char c = str "W")
           then Some (- val)%float
           else None);
    range_checked is_lat val.
Proof.
  intros Hs Hc. unfold _parse_coord.
  rewrite Hs, truthy_app_single, last_last, Hc, truthy_upper_char,
    removelast_last.
  simpl. destruct (py_float body) as [val|]; [|reflexivity]. simpl.
  match goal with |- context [if ?b then Some val else _] => destruct b end;
    [simpl; apply range_test_eq|].
  match goal with |- context [if ?b then Some _ else None] => destruct b end;
    [simpl; apply range_test_eq | reflexivity].
Qed.

(** [_parse_coord] returns the signed value of a well-formed string when
    it is in range, and nothing otherwise. *)
Lemma parse_coord_value (text : pystr) (is_lat : bool) (v : float) :
  coord_value (py_strip text) v ->
  _parse_coord text is_lat = range_checked is_lat v.
Proof.
  intros Hv. remember (py_strip text) as s eqn:Hs. symmetry in Hs.
  destruct Hv as [s v Hne Hlast Hf | body c v Hc Hu Hf | body c m Hc Hu Hf].
  - rewrite parse_coord_plain by (rewrite Hs; assumption).
    rewrite Hs, Hf. reflexivity.
  - rewrite (parse_coord_letter _ _ _ _ Hs Hc), Hf. simpl.
    destruct Hu as [-> | ->]; reflexivity.
  - rewrite (parse_coord_letter _ _ _ _ Hs Hc), Hf. simpl.
    destruct Hu as [-> | ->]; reflexivity.
Qed.

(** What [_parse_coord] returns is the signed value of a well-formed
    string, and is in range. *)
Lemma parse_coord_sound (text : pystr) (is_lat : bool) (v : float) :
  _parse_coord text is_lat = Some v ->
  coord_value (py_strip text) v /\ in_range is_lat v = true.
Proof.
  intros H.
  destruct (py_strip text) as [|x s'] eqn:Hs using rev_ind.
  { unfold _parse_coord in H. rewrite Hs in H. discriminate. }
  clear IHs'.
  destruct (isalpha x) eqn:Hx.
  - rewrite (parse_coord_letter _ _ _ _ Hs Hx) in H.
    destruct (py_float s') as [m|] eqn:Hf; [|discriminate]. simpl in H.
    destruct (bool_decide (upper_char x = str "N")
              || bool_decide (upper_char x = str "E")) eqn:Hne.
    + simpl in H. unfold range_checked in H.
      destruct (in_range is_lat m) eqn:Hr; [|discriminate].
      injection H as <-. split; [|assumption].
      apply cv_positive; [assumption| |assumption].
      apply orb_true_iff in Hne as [Hn | He];
        apply bool_decide_eq_true in Hn || apply bool_decide_eq_true in He;
        auto.
    + destruct (bool_decide (upper_char x = str "S")
                || bool_decide (upper_char x = str "W")) eqn:Hsw;
        [|discriminate].
      simpl in H. unfold range_checked in H.
      destruct (in_range is_lat (- m)) eqn:Hr; [|discriminate].
      injection H as <-. split; [|assumption].
      apply cv_negative; [assumption| |assumption].
      apply orb_true_iff in Hsw as [Hn | He];
        apply bool_decide_eq_true in Hn || apply bool_decide_eq_true in He;
        auto.
  - assert (Hne : py_strip text <> []) by (rewrite Hs; destruct s'; discriminate).
    assert (Hl : isalpha (List.last (py_strip text) 0) = false)
      by (rewrite Hs, last_last; assumption).
    rewrite (parse_coord_plain _ _ Hne Hl) in H.
    destruct (py_float (py_strip text)) as [m|] eqn:Hf; [|discriminate].
    simpl in H. unfold range_checked in H.
    destruct (in_range is_lat m) eqn:Hr; [|discriminate].
    injection H as <-. rewrite <- Hs. split; [|assumption].
    apply cv_plain; assumption.
Qed.

(** C3 (as amended): in [_parse_coord], a letter at the end of the string
    is accepted exactly when its upper case is N, E, S or W, whichever
    axis is parsed; S and W negate the number before it, N and E leave it
    as written, and the range test of the axis follows; any other letter
    makes the parse fail. *)
Theorem parse_coord_hemisphere_letter
    (text : pystr) (is_lat : bool) (body : pystr) (c : Z) :
  py_strip text = body ++ [c] -> isalpha c = true ->
  (upper_char c = str "N" \/ upper_char c = str "E" ->
     _parse_coord text is_lat = py_float body ≫= range_checked is_lat)
  /\ (upper_char c = str "S" \/ upper_char c = str "W" ->
        _parse_coord text is_lat =
          py_float body ≫= (fun m => range_checked is_lat (- m)%float))
  /\ (upper_char c <> str "N" -> upper_char c <> str "E" ->
      upper_char c <> str "S" -> upper_char c <> str "W" ->
        _parse_coord text is_lat = None).
Proof.
  intros Hs Hc. rewrite (parse_coord_letter _ _ _ _ Hs Hc).
  split; [|split].
  - intros [-> | ->]; destruct (py_float body); reflexivity.
  - intros [-> | ->]; destruct (py_float body); reflexivity.
  - intros Hn He Hs' Hw.
    rewrite !bool_decide_eq_false_2 by assumption.
    destruct (py_float body); reflexivity.
Qed.

(** The letter of the other axis is accepted: the longitude letter W on a
    latitude. *)
Lemma parse_coord_hemisphere_letter_witness :
  _parse_coord (str "40.0W") true = Some (-40)%float.
Proof.
  destruct (parse_coord_hemisphere_letter (str "40.0W") true (str "40.0") 87)
    as (_ & Hneg & _); [reflexivity | reflexivity |].
  rewrite Hneg; [reflexivity | right; reflexivity].
Defined.

(** C3 (as stated) fails: the string 40.0W parsed as a latitude is not
    refused; it is read as 40 degrees, negated. *)
Lemma parse_coord_accepts_other_axis :
  _parse_coord (str "40.0W") true = Some (-40)%float
  /\ _parse_coord (str "40.0W") true <> None
  /\ _parse_coord (str "100E") false = Some 100%float.
Proof. vm_compute. repeat split; discriminate. Qed.



(** ** [best_latlon] *)

(** C5: when LAT and LON are both present and non-empty and parse to a
    pair, [best_latlon] returns that pair, tagged LATLON, whatever the
    grid-square fields hold. *)
Theorem best_latlon_prefers_direct
    (e : entry) (lat lon : pystr) (la lo : float) :
  e !! str "LAT" = Some lat -> e !! str "LON" = Some lon ->
  lat <> [] -> lon <> [] ->
  parse_latlon lat lon = Some (la, lo) ->
  best_latlon e = Ret (Some (la, lo, str "LATLON")).
Proof.
  intros Hlat Hlon Hla Hlo Hp. unfold best_latlon.
  rewrite Hlat, Hlon, (truthy_true _ Hla), (truthy_true _ Hlo), Hp.
  reflexivity.
Qed.

(** A record with LAT 40.00N, LON 074.0W and GRIDSQUARE FN20 (whose cell
    centre is elsewhere) resolves to the explicit pair. *)
Lemma best_latlon_prefers_direct_witness :
  best_latlon (<[str "LAT" := str "40.00N"]>
               (<[str "LON" := str "074.0W"]>
                (<[str "GRIDSQUARE" := str "FN20"]> ∅)))
  = Ret (Some (40%float, (-74)%float, str "LATLON")).
Proof.
  apply (best_latlon_prefers_direct _ (str "40.00N") (str "074.0W"));
    [reflexivity | reflexivity | discriminate | discriminate | reflexivity].
Defined.



(** A coordinate [best_latlon] takes from LAT and LON is in range. *)
Lemma parse_latlon_in_range (lat lon : pystr) (la lo : float) :
  parse_latlon lat lon = Some (la, lo) ->
  in_range true la = true /\ in_range false lo = true.
Proof.
  unfold parse_latlon. intros H.
  destruct (_parse_coord lat true) as [x|] eqn:Hx; [|discriminate].
  destruct (_parse_coord lon false) as [y|] eqn:Hy; [|discriminate].
  injection H as <- <-.
  split; [apply (parse_coord_sound _ _ _ Hx) | apply (parse_coord_sound _ _ _ Hy)].
Qed.

(** C1: the claim fails on the code for the grid square ZZ.  The
    converter does not test the field letters, and [best_latlon] returns
    the pair it gets: latitude 165, longitude 330, both out of range. *)
Theorem best_latlon_grid_not_range_checked :
  best_latlon (<[str "GRIDSQUARE" := str "ZZ"]> ∅)
  = Ret (Some (165%float, 330%float, str "GRID"))
  /\ in_range true 165%float = false
  /\ in_range false 330%float = false.
Proof. repeat split; reflexivity. Qed.

(** ** [maidenhead_to_latlon] *)

(** What [maidenhead_to_latlon] does refuse: fewer than two characters
    after [strip] and [upper], three characters, and characters that are
    not digits in positions 2 and 3; five or seven characters give
    [None] unless [int] raises before. *)
Lemma maidenhead_rejects (grid : pystr) :
  let g := py_upper (py_strip grid) in
  ((length g < 2)%nat \/ length g = 3%nat -> maidenhead_to_latlon grid = Ret None)
  /\ ((4 <= length g)%nat -> str_isdigit (slice g 2 4) = false ->
      maidenhead_to_latlon grid = Ret None)
  /\ (length g = 5%nat \/ length g = 7%nat ->
      maidenhead_to_latlon grid = Ret None
      \/ maidenhead_to_latlon grid = Raise ValueError).
Proof.
  intros g. unfold maidenhead_to_latlon. fold g.
  destruct grid as [|c grid']; [repeat split; intros; auto|].
  cbn [truthy negb]. split; [|split].
  - intros [Hn | Hn].
    + apply Nat.ltb_lt in Hn. rewrite Hn. reflexivity.
    + rewrite Hn. reflexivity.
  - intros Hn Hd. rewrite Hd, andb_false_r.
    destruct (length g <? 2)%nat eqn:H2; [reflexivity|].
    assert (H3 : (3 <=? length g)%nat = true) by (apply Nat.leb_le; lia).
    rewrite H3. reflexivity.
  - intros [Hn | Hn]; rewrite Hn;
      destruct (str_isdigit (slice g 2 4)); cbn [Nat.leb Nat.ltb Nat.eqb andb];
      unfold py_int_char;
      destruct (isdecimal (at_ g 2)); destruct (isdecimal (at_ g 3));
      destruct (isalpha (at_ g 4)); destruct (isalpha (at_ g 5));
      auto.
Qed.

(** C2: the claim fails on the code.  Digits in the field positions are
    converted like letters; superscript digits pass [isdigit] and make
    [int] raise; characters that are not digits in positions 6 and 7, or
    not letters in positions 4 and 5, are passed over. *)
Theorem maidenhead_invalid_input_accepted :
  maidenhead_to_latlon (str "00") = Ret (Some ((-255)%float, (-510)%float))
  /\ maidenhead_to_latlon (str "AA" ++ [178; 178]) = Raise ValueError
  /\ (exists c, maidenhead_to_latlon (str "FN20AB!!") = Ret (Some c))
  /\ (exists c, maidenhead_to_latlon (str "FN2012") = Ret (Some c)).
Proof.
  split; [reflexivity|]. split; [reflexivity|].
  split; eexists; vm_compute; reflexivity.
Qed.

(** C4 (as amended): the grid square FN20 converts to the centre of its
    cell, latitude 40.5 and longitude -75 exactly. *)
Theorem maidenhead_FN20 :
  maidenhead_to_latlon (str "FN20") = Ret (Some (40.5%float, (-75)%float)).
Proof. reflexivity. Qed.

(** C4 (as stated) fails: the result for FN20 is not within 0.01 of
    (41.0, -72.0). *)
Lemma maidenhead_FN20_not_41_72 :
  ~ (exists lat lon,
       maidenhead_to_latlon (str "FN20") = Ret (Some (lat, lon))
       /\ (PrimFloat.abs (lat - 41) <=? 1 / 100)%float = true
       /\ (PrimFloat.abs (lon - (-72)) <=? 1 / 100)%float = true).
Proof.
  intros (lat & lon & H & Hlat & Hlon).
  assert (E : maidenhead_to_latlon (str "FN20")
              = Ret (Some (40.5%float, (-75)%float))) by reflexivity.
  rewrite E in H. injection H as <- <-.
  vm_compute in Hlat. discriminate.
Qed.

(** ** The loop of [build_map] *)

Lemma build_map_loop (records : list entry) :
  forall (points : list (float * float * entry)) (skipped : Z),
  forallb (fun r => negb (raises r)) records = true ->
  for_each build_map_step (points, skipped) records
  = Ret (points ++ omap resolved records,
         skipped + Z.of_nat (length (List.filter is_absent records))).
Proof.
  induction records as [|rec records IH]; intros points skipped Hok.
  - simpl. rewrite app_nil_r, Z.add_0_r. reflexivity.
  - simpl in Hok. apply andb_true_iff in Hok as [Hrec Hok].
    cbn [for_each build_map_step omap List.filter list_omap].
    unfold raises in Hrec. unfold resolved at 1. unfold is_absent at 1.
    destruct (best_latlon rec) as [[[[lat lon] src]|]|ex]; [| |discriminate].
    + rewrite (IH _ _ Hok), <- app_assoc. reflexivity.
    + rewrite (IH _ _ Hok). cbn [length]. f_equal. f_equal. lia.
Qed.

(** When no resolution raises, the loop ends with the resolved records in
    input order and the number of the others; the two add up to the
    number of records. *)
Lemma build_map_points_returns (records : list entry) :
  forallb (fun r => negb (raises r)) records = true ->
  exists points skipped,
    build_map_points records = Ret (points, skipped)
    /\ points = omap resolved records
    /\ skipped = Z.of_nat (length (List.filter is_absent records))
    /\ Z.of_nat (length points) + skipped = Z.of_nat (length records)
    /\ (forallb is_absent records = true ->
        points = [] /\ skipped = Z.of_nat (length records)).
Proof.
  intros Hok. unfold build_map_points. rewrite (build_map_loop _ _ _ Hok).
  eexists _, _. split; [reflexivity|]. split; [reflexivity|].
  split; [reflexivity|]. simpl. split.
  - clear -Hok. induction records as [|rec records IH]; [reflexivity|].
    simpl in Hok. apply andb_true_iff in Hok as [Hrec Hok].
    specialize (IH Hok). cbn [omap list_omap List.filter].
    unfold raises in Hrec. unfold resolved at 1. unfold is_absent at 1.
    destruct (best_latlon rec) as [[[[lat lon] src]|]|ex]; [| |discriminate];
      cbn [length]; lia.
  - intros Habs. clear Hok.
    induction records as [|rec records IH]; [split; reflexivity|].
    simpl in Habs. apply andb_true_iff in Habs as [Hrec Habs].
    destruct (IH Habs) as [IH1 IH2]. cbn [omap list_omap List.filter].
    rewrite Hrec. unfold is_absent in Hrec. unfold resolved at 1.
    destruct (best_latlon rec) as [[[[lat lon] src]|]|ex]; try discriminate.
    split; [assumption|]. cbn [length]. lia.
Qed.

(** C8: the claim fails on the code for a record whose grid square has a
    superscript digit in position 2 or 3, as [parse_adif] returns for the
    text [<GRIDSQUARE:4>AA..<EOR>] with two characters U+00B2 for the
    dots: [best_latlon] raises, and the
    loop ends there, with neither a point nor a skip for that record or
    the ones after it. *)
Theorem build_map_points_raises :
  let bad : entry := <[str "GRIDSQUARE" := str "AA" ++ [178; 178]]> ∅ in
  let good : entry := <[str "GRIDSQUARE" := str "FN20"]> ∅ in
  parse_adif (str "<GRIDSQUARE:4>AA" ++ [178; 178] ++ str "<EOR>") = [bad]
  /\ best_latlon bad = Raise ValueError
  /\ build_map_points [bad] = Raise ValueError
  /\ build_map_points [good; bad; good] = Raise ValueError.
Proof. repeat split; vm_compute; reflexivity. Qed.

(** ** The markers of [parse_adif] *)

Lemma search_ci_eq (pat s : pystr) :
  search_ci pat s =
    if starts_ci pat s then Some (drop (length pat) s)
    else match s with
         | [] => None
         | _ :: s' => search_ci pat s'
         end.
Proof. destruct s; reflexivity. Qed.

Lemma starts_ci_spelling (pat m rest : pystr) :
  spelling pat m -> starts_ci pat (m ++ rest) = true.
Proof.
  unfold spelling. intros <-. induction m as [|c m IH]; [reflexivity|].
  simpl. rewrite IH, andb_true_r. unfold ci_eqb.
  rewrite Z.eqb_refl. apply orb_true_r.
Qed.

Lemma starts_ci_occurs (pat s : pystr) :
  Forall (fun p => ascii_lower p = p) pat ->
  starts_ci pat s = true -> exists m b, s = m ++ b /\ spelling pat m.
Proof.
  intros Hpat. revert s.
  induction Hpat as [|p pat Hp Hpat IH]; intros s H.
  - exists [], s. split; reflexivity.
  - destruct s as [|c s]; [discriminate|]. simpl in H.
    apply andb_true_iff in H as [Hc Hs].
    destruct (IH _ Hs) as (m & b & -> & Hm).
    exists (c :: m), b. split; [reflexivity|].
    unfold spelling in *. simpl. rewrite Hm. f_equal.
    unfold ci_eqb in Hc. apply orb_true_iff in Hc as [Hc | Hc];
      apply Z.eqb_eq in Hc; congruence.
Qed.

(** [search_ci] finds nothing exactly when no spelling of the marker
    occurs. *)
Lemma search_ci_None_iff (pat s : pystr) :
  Forall (fun p => ascii_lower p = p) pat ->
  search_ci pat s = None <-> ~ occurs pat s.
Proof.
  intros Hpat. split.
  - intros Hnone (a & m & b & -> & Hm). induction a as [|c a IH].
    + simpl app in Hnone.
      rewrite search_ci_eq, (starts_ci_spelling _ _ _ Hm) in Hnone.
      discriminate.
    + rewrite search_ci_eq in Hnone. simpl app in Hnone.
      destruct (starts_ci pat (c :: a ++ m ++ b)); [discriminate|]. auto.
  - intros Hno. induction s as [|c s IH].
    + rewrite search_ci_eq. destruct (starts_ci pat []) eqn:E; [|reflexivity].
      exfalso. apply Hno. destruct (starts_ci_occurs _ _ Hpat E) as (m & b & Hs & Hm).
      exists [], m, b. auto.
    + rewrite search_ci_eq. destruct (starts_ci pat (c :: s)) eqn:E.
      * exfalso. apply Hno.
        destruct (starts_ci_occurs _ _ Hpat E) as (m & b & Hs & Hm).
        exists [], m, b. auto.
      * apply IH. intros (a & m & b & -> & Hm). apply Hno.
        exists (c :: a), m, b. auto.
Qed.

Section Marker.
(** A marker: a less-than sign, then characters that do not match a
    less-than sign. *)
Variable tl : pystr.
Hypothesis tl_no_lt : Forall (fun p => ci_eqb p 60 = false) tl.

Let pat : pystr := 60 :: tl.

Lemma starts_ci_extend (q a b : pystr) :
  Forall (fun p => ci_eqb p 60 = false) q ->
  starts_ci q a = false -> starts_ci q (a ++ 60 :: b) = false.
Proof.
  intros Hq. revert a. induction Hq as [|p q Hp Hq IH]; intros a H.
  - discriminate.
  - destruct a as [|c a]; simpl.
    + rewrite Hp. reflexivity.
    + simpl in H. apply andb_false_iff in H as [H | H].
      * rewrite H. reflexivity.
      * rewrite (IH _ H). apply andb_false_r.
Qed.

Lemma spelling_head (m : pystr) :
  spelling pat m -> exists m', m = 60 :: m' /\ length m' = length tl.
Proof.
  unfold spelling, pat. destruct m as [|c m']; [discriminate|].
  simpl. intros H. injection H as Hc Hm. exists m'. split.
  - f_equal. unfold ascii_lower in Hc.
    destruct (between 65 90 c) eqn:Hb; [|assumption].
    unfold between in Hb. lia.
  - rewrite <- Hm. symmetry. apply length_map.
Qed.

Lemma starts_ci_before_marker (c : Z) (a m b : pystr) :
  spelling pat m ->
  starts_ci pat (c :: a) = false ->
  starts_ci pat (c :: a ++ m ++ b) = false.
Proof.
  intros Hm H. destruct (spelling_head _ Hm) as (m' & -> & _).
  unfold pat in *. simpl in *.
  apply andb_false_iff in H as [H | H].
  - rewrite H. reflexivity.
  - rewrite (starts_ci_extend _ _ _ tl_no_lt H). apply andb_false_r.
Qed.

(** The leftmost match is the first spelling of the marker. *)
Lemma search_ci_first (a m b : pystr) :
  spelling pat m -> search_ci pat a = None ->
  search_ci pat (a ++ m ++ b) = Some b.
Proof.
  intros Hm. induction a as [|c a IH]; intros Ha.
  - simpl app. rewrite search_ci_eq, (starts_ci_spelling _ _ _ Hm).
    f_equal. rewrite drop_app_length'; [reflexivity|].
    unfold spelling in Hm. rewrite <- Hm. apply length_map.
  - rewrite search_ci_eq in Ha.
    destruct (starts_ci pat (c :: a)) eqn:E; [discriminate|].
    rewrite search_ci_eq. simpl app.
    rewrite (starts_ci_before_marker _ _ _ _ Hm E). auto.
Qed.

Lemma split_ci_skip (a r : pystr) :
  split_ci pat (length a) (a ++ r) = split_ci pat 0 r.
Proof. induction a as [|c a IH]; [reflexivity | exact IH]. Qed.

(** The first piece of the split ends at the first spelling of the
    marker. *)
Lemma split_ci_first (a m b : pystr) :
  spelling pat m -> search_ci pat a = None ->
  split_ci pat 0 (a ++ m ++ b) = a :: split_ci pat 0 b.
Proof.
  intros Hm. induction a as [|c a IH]; intros Ha.
  - destruct (spelling_head _ Hm) as (m' & Em & Hlen).
    pose proof (starts_ci_spelling _ _ b Hm) as Hs. subst m.
    simpl app in *. cbn [split_ci]. rewrite Hs. f_equal.
    unfold pat. cbn [length]. rewrite Nat.sub_succ, Nat.sub_0_r, <- Hlen.
    apply split_ci_skip.
  - rewrite search_ci_eq in Ha.
    destruct (starts_ci pat (c :: a)) eqn:E; [discriminate|].
    simpl app. cbn [split_ci].
    rewrite (starts_ci_before_marker _ _ _ _ Hm E), (IH Ha). reflexivity.
Qed.

(** Without marker there is one piece. *)
Lemma split_ci_none (a : pystr) :
  search_ci pat a = None -> split_ci pat 0 a = [a].
Proof.
  induction a as [|c a IH]; intros Ha; [reflexivity|].
  rewrite search_ci_eq in Ha.
  destruct (starts_ci pat (c :: a)) eqn:E; [discriminate|].
  cbn [split_ci]. rewrite E, (IH Ha). reflexivity.
Qed.
End Marker.

Lemma eoh_marker : eoh = 60 :: str "eoh>" /\ Forall (fun p => ci_eqb p 60 = false) (str "eoh>").
Proof. split; [reflexivity | repeat constructor]. Qed.

Lemma eor_marker : eor = 60 :: str "eor>" /\ Forall (fun p => ci_eqb p 60 = false) (str "eor>").
Proof. split; [reflexivity | repeat constructor]. Qed.

(** ** The records of [parse_adif] *)

Lemma lstrip_by_all (ws : Z -> bool) (s : pystr) :
  forallb ws s = true -> lstrip_by ws s = [].
Proof.
  induction s as [|c s IH]; [reflexivity|]. simpl. intros H.
  apply andb_true_iff in H as [-> H]. auto.
Qed.

Lemma py_strip_blank (s : pystr) : forallb isspace s = true -> py_strip s = [].
Proof.
  intros H. unfold py_strip, strip_by. rewrite (lstrip_by_all _ _ H).
  reflexivity.
Qed.

Lemma parse_record_app (records : list entry) (raw : pystr) :
  parse_record records raw = records ++ parse_record [] raw.
Proof.
  unfold parse_record. destruct (negb (truthy (py_strip raw))).
  - symmetry. apply app_nil_r.
  - match goal with |- context [if ?b then _ else _] => destruct b end;
      [reflexivity | symmetry; apply app_nil_r].
Qed.

Lemma fold_parse_record (raws : list pystr) :
  forall records,
  fold_left parse_record raws records
  = records ++ fold_left parse_record raws [].
Proof.
  induction raws as [|raw raws IH]; intros records; simpl.
  - symmetry. apply app_nil_r.
  - rewrite IH, (IH (parse_record [] raw)), parse_record_app, app_assoc.
    reflexivity.
Qed.

(** A piece that is blank after [strip], or in which the field pattern
    matches nowhere, adds no record. *)
Lemma parse_record_nothing (records : list entry) (raw : pystr) :
  py_strip raw = [] \/ finditer_field 0 (py_strip raw) = [] ->
  parse_record records raw = records.
Proof.
  unfold parse_record. intros [-> | ->]; [reflexivity|].
  destruct (negb (truthy (py_strip raw))); reflexivity.
Qed.

Lemma parse_data_first (chunk r rest : pystr) :
  spelling eor r -> search_ci eor chunk = None ->
  parse_data (chunk ++ r ++ rest) = parse_record [] chunk ++ parse_data rest.
Proof.
  intros Hr Hc. unfold parse_data. destruct eor_marker as [E Htl].
  rewrite E in *. rewrite (split_ci_first _ Htl _ _ _ Hr Hc).
  simpl. apply fold_parse_record.
Qed.

Lemma parse_data_last (chunk : pystr) :
  search_ci eor chunk = None -> parse_data chunk = parse_record [] chunk.
Proof.
  intros Hc. unfold parse_data. destruct eor_marker as [E Htl].
  rewrite E in *. rewrite (split_ci_none _ _ Hc). reflexivity.
Qed.

(** C7: the end-of-header and end-of-record markers are recognised in any
    letter case.  With [h] a spelling of the header marker and no spelling
    of it before, everything up to and including [h] is dropped; a text
    without header marker is data as a whole.  With [r] a spelling of the
    record marker and none inside [chunk], the data splits into [chunk]
    and what follows [r]; a last chunk needs no marker.  A chunk of white
    space, and a chunk where the field pattern matches nowhere, add no
    record. *)
Theorem parse_adif_markers
    (pre h post nohdr chunk r rest blank junk : pystr) (records : list entry) :
  spelling eoh h -> search_ci eoh pre = None ->
  search_ci eoh nohdr = None ->
  spelling eor r -> search_ci eor chunk = None ->
  forallb isspace blank = true ->
  finditer_field 0 (py_strip junk) = [] ->
  parse_adif (pre ++ h ++ post) = parse_data post
  /\ parse_adif nohdr = parse_data nohdr
  /\ parse_data (chunk ++ r ++ rest) = parse_record [] chunk ++ parse_data rest
  /\ parse_data chunk = parse_record [] chunk
  /\ parse_record records blank = records
  /\ parse_record records junk = records.
Proof.
  intros Hh Hpre Hno Hr Hchunk Hblank Hjunk.
  repeat split.
  - unfold parse_adif. fold (parse_data post).
    destruct eoh_marker as [E Htl]. rewrite E in *.
    rewrite (search_ci_first _ Htl _ _ _ Hh Hpre). reflexivity.
  - unfold parse_adif. rewrite Hno. reflexivity.
  - apply parse_data_first; assumption.
  - apply parse_data_last; assumption.
  - apply parse_record_nothing. left. apply py_strip_blank. assumption.
  - apply parse_record_nothing. right. assumption.
Qed.

(** Header in mixed case, a record, a blank chunk after the last marker. *)
Lemma parse_adif_markers_witness :
  parse_adif (str "generated <adif_ver:5>3.1.0 " ++ str "<EoH>"
              ++ str "<call:2>ab<eOr>  ")
  = parse_data (str "<call:2>ab<eOr>  ")
  /\ parse_adif (str "<call:2>ab<EOR>") = parse_data (str "<call:2>ab<EOR>")
  /\ parse_data (str "<call:2>ab" ++ str "<eOr>" ++ str "  ")
     = parse_record [] (str "<call:2>ab") ++ parse_data (str "  ")
  /\ parse_data (str "<call:2>ab") = parse_record [] (str "<call:2>ab")
  /\ parse_record [] [32; 10; 9] = []
  /\ parse_record [] (str "stray <bad:x>1") = [].
Proof.
  apply (parse_adif_markers
           (str "generated <adif_ver:5>3.1.0 ") (str "<EoH>")
           (str "<call:2>ab<eOr>  ") (str "<call:2>ab<EOR>")
           (str "<call:2>ab") (str "<eOr>") (str "  ")
           [32; 10; 9] (str "stray <bad:x>1") []); reflexivity.
Defined.

(** ** The field pattern *)

Lemma span_stop (p : Z -> bool) (a b : pystr) :
  forallb p a = true ->
  match b with
  | [] => True
  | x :: _ => p x = false
  end ->
  span p (a ++ b) = (a, b).
Proof.
  intros Ha Hb. induction a as [|c a IH]; simpl.
  - destruct b as [|x b]; [reflexivity|]. simpl. rewrite Hb. reflexivity.
  - simpl in Ha. apply andb_true_iff in Ha as [-> Ha]. rewrite (IH Ha).
    reflexivity.
Qed.

Lemma well_formed_inv (t : tag) :
  well_formed t = true ->
  t_name t <> [] /\ forallb is_name_char (t_name t) = true
  /\ t_length t <> [] /\ forallb isdecimal (t_length t) = true
  /\ forallb (fun c => negb (c =? 62)) (default [] (t_type t)) = true
  /\ forallb (fun c => negb (c =? 60)) (t_value t) = true.
Proof.
  unfold well_formed. intros H.
  repeat (apply andb_true_iff in H as [H ?]).
  repeat split; try assumption.
  - intros E. rewrite E in H. discriminate.
  - intros E. rewrite E in *. discriminate.
Qed.

Lemma length_render (t : tag) :
  length (render t)
  = (1 + length (t_name t) + 1 + length (t_length t)
     + match t_type t with
       | Some tc => S (length tc)
       | None => 0
       end
     + 1 + length (t_value t))%nat.
Proof.
  unfold render, tag_head. destruct (t_type t) as [tc|];
    cbn [length]; rewrite ?length_app; cbn [length];
    rewrite ?length_app; cbn [length]; rewrite ?length_app; cbn [length]; lia.
Qed.

(** The field pattern recovers a well-formed tag that ends at a tag
    boundary. *)
Lemma match_field_render (t : tag) (rest : pystr) :
  well_formed t = true -> tag_boundary rest ->
  match_field (render t ++ rest) = Some (match_of t).
Proof.
  intros Hwf Hrest.
  destruct (well_formed_inv _ Hwf) as (Hn & Hnc & Hl & Hlc & Htc & Hv).
  unfold match_of. rewrite length_render.
  unfold render, tag_head.
  destruct t as [name len ty value]. cbn [t_name t_length t_type t_value] in *.
  cbn [app]. rewrite <- !app_assoc. cbn [app]. rewrite <- !app_assoc.
  cbn [match_field].
  rewrite (span_stop is_name_char name _ Hnc) by reflexivity.
  destruct name as [|n0 name]; [congruence|].
  assert (Hval : span (fun c => negb (c =? 60)) (value ++ rest) = (value, rest)).
  { apply span_stop; [assumption|].
    destruct rest as [|x rest]; [exact I|]. simpl in Hrest. subst x. reflexivity. }
  destruct ty as [tc|]; cbn [app default] in *.
  - rewrite (span_stop isdecimal len _ Hlc) by reflexivity.
    destruct len as [|d0 len]; [congruence|].
    rewrite (span_stop _ tc _ Htc) by reflexivity.
    cbn [mbind option_bind]. rewrite Hval. reflexivity.
  - rewrite (span_stop isdecimal len _ Hlc) by reflexivity.
    destruct len as [|d0 len]; [congruence|].
    cbn [mbind option_bind]. rewrite Hval. reflexivity.
Qed.

Lemma finditer_skip (a r : pystr) :
  finditer_field (length a) (a ++ r) = finditer_field 0 r.
Proof. induction a as [|c a IH]; [reflexivity | exact IH]. Qed.

Lemma tag_boundary_tags (ts : list tag) : tag_boundary (flat_map render ts).
Proof. destruct ts; [exact I | reflexivity]. Qed.

(** On a run of well-formed tags the scan yields the tags, in order. *)
Lemma finditer_tags (ts : list tag) :
  forallb well_formed ts = true ->
  finditer_field 0 (flat_map render ts) = map match_of ts.
Proof.
  induction ts as [|t ts IH]; intros Hwf; [reflexivity|].
  simpl in Hwf. apply andb_true_iff in Hwf as [Ht Hts].
  cbn [flat_map map].
  pose proof (match_field_render t _ Ht (tag_boundary_tags ts)) as Hm.
  pose proof (length_render t) as Hlen.
  unfold render at 1 in Hm. unfold render at 1 in Hlen. unfold render at 1.
  unfold tag_head in *. cbn [app] in *. cbn [finditer_field].
  rewrite Hm. f_equal. cbn [match_of m_size].
  unfold render, tag_head. cbn [app length]. rewrite Nat.sub_succ, Nat.sub_0_r.
  rewrite finditer_skip. exact (IH Hts).
Qed.

(** ** [strip] *)

Lemma lstrip_by_stop (ws : Z -> bool) (u : pystr) (x : Z) (w : pystr) :
  ws x = false -> lstrip_by ws (u ++ x :: w) = lstrip_by ws u ++ x :: w.
Proof.
  intros Hx. induction u as [|c u IH]; simpl.
  - rewrite Hx. reflexivity.
  - destruct (ws c); [exact IH | reflexivity].
Qed.

Lemma rstrip_by_stop (ws : Z -> bool) (a : pystr) (x : Z) (v : pystr) :
  ws x = false -> rstrip_by ws (a ++ x :: v) = a ++ x :: rstrip_by ws v.
Proof.
  intros Hx. unfold rstrip_by.
  rewrite rev_app_distr. simpl rev. rewrite <- app_assoc. simpl app.
  rewrite (lstrip_by_stop _ _ _ _ Hx), rev_app_distr. simpl rev.
  rewrite rev_involutive, <- app_assoc. reflexivity.
Qed.

Lemma rstrip_by_snoc (ws : Z -> bool) (v : pystr) (x : Z) :
  rstrip_by ws (v ++ [x]) = if ws x then rstrip_by ws v else v ++ [x].
Proof.
  unfold rstrip_by. rewrite rev_app_distr. simpl.
  destruct (ws x); [reflexivity|]. simpl. rewrite rev_involutive. reflexivity.
Qed.

(** [rstrip] removes a run of white space from the end. *)
Lemma rstrip_by_decompose (ws : Z -> bool) (v : pystr) :
  exists w, v = rstrip_by ws v ++ w /\ forallb ws w = true.
Proof.
  induction v as [|x v IH] using rev_ind.
  - exists []. split; reflexivity.
  - rewrite rstrip_by_snoc. destruct (ws x) eqn:Hx.
    + destruct IH as (w & Hv & Hw). exists (w ++ [x]). split.
      * rewrite app_assoc, <- Hv. reflexivity.
      * rewrite forallb_app, Hw. simpl. rewrite Hx. reflexivity.
    + exists []. split; [symmetry; apply app_nil_r | reflexivity].
Qed.

Lemma rstrip_by_app_ws (ws : Z -> bool) (b w : pystr) :
  forallb ws w = true -> rstrip_by ws (b ++ w) = rstrip_by ws b.
Proof.
  induction w as [|x w IH] using rev_ind; intros Hw.
  - rewrite app_nil_r. reflexivity.
  - rewrite forallb_app in Hw. apply andb_true_iff in Hw as [Hw Hx].
    simpl in Hx. apply andb_true_iff in Hx as [Hx _].
    rewrite app_assoc, rstrip_by_snoc, Hx. exact (IH Hw).
Qed.

(** White space added at the end does not change the result of [strip]. *)
Lemma strip_by_app_ws (ws : Z -> bool) (a w : pystr) :
  forallb ws w = true -> strip_by ws (a ++ w) = strip_by ws a.
Proof.
  intros Hw. unfold strip_by. induction a as [|c a IH]; simpl.
  - rewrite (lstrip_by_all _ _ Hw). reflexivity.
  - destruct (ws c); [exact IH|].
    apply (rstrip_by_app_ws ws (c :: a) w Hw).
Qed.

Lemma forallb_take (p : Z -> bool) (n : nat) (w : pystr) :
  forallb p w = true -> forallb p (take n w) = true.
Proof.
  revert n. induction w as [|x w IH]; intros [|n] H; try reflexivity.
  simpl in *. apply andb_true_iff in H as [-> H]. exact (IH _ H).
Qed.

(** Cutting the value to its first [n] characters and trimming gives the
    same whether or not the white space at the end of the value was
    removed before. *)
Lemma strip_take_rstrip (n : nat) (v : pystr) :
  py_strip (take n (rstrip_by isspace v)) = py_strip (take n v).
Proof.
  destruct (rstrip_by_decompose isspace v) as (w & Hv & Hw).
  rewrite Hv at 2. rewrite take_app. unfold py_strip.
  rewrite strip_by_app_ws by (apply forallb_take; assumption). reflexivity.
Qed.

(** ** The record built from a run of tags *)

Lemma tags_start (ts0 : list tag) (t : tag) :
  exists a, flat_map render ts0 ++ tag_head t = 60 :: a.
Proof. destruct ts0 as [|t0 ts0]; eexists; reflexivity. Qed.

(** [strip] on a run of tags only touches the value of the last one. *)
Lemma py_strip_tags (ts0 : list tag) (t : tag) :
  py_strip (flat_map render (ts0 ++ [t]))
  = flat_map render (ts0 ++ [rstrip_value t]).
Proof.
  rewrite !flat_map_app. cbn [flat_map]. rewrite !app_nil_r.
  unfold render at 2 4. cbn [rstrip_value t_value].
  change (tag_head (rstrip_value t)) with (tag_head t).
  rewrite !app_assoc. destruct (tags_start ts0 t) as (a & ->).
  unfold py_strip, strip_by. cbn [lstrip_by].
  change (isspace 60) with false. cbn iota.
  apply (rstrip_by_stop isspace (60 :: a) 62). reflexivity.
Qed.

Lemma well_formed_rstrip (t : tag) :
  well_formed t = true -> well_formed (rstrip_value t) = true.
Proof.
  unfold well_formed. cbn [rstrip_value t_name t_length t_type t_value].
  intros H. apply andb_true_iff in H as [H Hv]. rewrite H. simpl.
  destruct (rstrip_by_decompose isspace (t_value t)) as (w & Hw & _).
  rewrite Hw, forallb_app in Hv. apply andb_true_iff in Hv as [Hv _].
  exact Hv.
Qed.

Lemma store_field_tag (e : entry) (t : tag) :
  store_field e (match_of t) = <[py_upper (t_name t) := stored t]> e.
Proof. reflexivity. Qed.

Lemma store_field_rstrip (e : entry) (t : tag) :
  store_field e (match_of (rstrip_value t)) = store_field e (match_of t).
Proof.
  rewrite !store_field_tag. unfold stored.
  cbn [rstrip_value t_name t_length t_value].
  rewrite strip_take_rstrip. reflexivity.
Qed.

Lemma entry_of_rstrip (ts0 : list tag) (t : tag) :
  entry_of (ts0 ++ [rstrip_value t]) = entry_of (ts0 ++ [t]).
Proof.
  unfold entry_of. rewrite !map_app, !fold_left_app. cbn [map fold_left].
  apply store_field_rstrip.
Qed.

(** Tags with other names leave a key as it is. *)
Lemma fold_store_other (ts : list tag) (N : pystr) :
  Forall (fun u => py_upper (t_name u) <> N) ts ->
  forall e : entry,
  fold_left store_field (map match_of ts) e !! N = e !! N.
Proof.
  induction 1 as [|u ts Hu Hts IH]; intros e; [reflexivity|].
  cbn [map fold_left]. rewrite IH, store_field_tag.
  apply lookup_insert_ne. exact Hu.
Qed.

(** The last tag of a name decides its value. *)
Lemma entry_of_last (ts1 : list tag) (u : tag) (ts2 : list tag) :
  Forall (fun u' => py_upper (t_name u') <> py_upper (t_name u)) ts2 ->
  entry_of (ts1 ++ u :: ts2) !! py_upper (t_name u) = Some (stored u).
Proof.
  intros H2. unfold entry_of. rewrite map_app, fold_left_app.
  cbn [map fold_left]. rewrite (fold_store_other _ _ H2), store_field_tag.
  apply lookup_insert_eq.
Qed.

(** Every key comes from a tag. *)
Lemma fold_store_keys (ts : list tag) (N : pystr) :
  forall e : entry,
  is_Some (fold_left store_field (map match_of ts) e !! N) ->
  is_Some (e !! N) \/ exists u, In u ts /\ py_upper (t_name u) = N.
Proof.
  induction ts as [|u ts IH]; intros e H; [left; exact H|].
  cbn [map fold_left] in H. destruct (IH _ H) as [He | (u' & Hin & Hu')].
  - rewrite store_field_tag in He.
    destruct (decide (py_upper (t_name u) = N)) as [E | E].
    + right. exists u. split; [left; reflexivity | exact E].
    + rewrite lookup_insert_ne in He by exact E. left. exact He.
  - right. exists u'. split; [right; exact Hin | exact Hu'].
Qed.

Lemma entry_of_nonempty (ts0 : list tag) (t : tag) : entry_of (ts0 ++ [t]) <> ∅.
Proof.
  intros E. pose proof (entry_of_last ts0 t [] (List.Forall_nil _)) as H.
  rewrite E, lookup_empty in H. discriminate.
Qed.

(** A run of well-formed tags gives one record. *)
Lemma parse_record_tags (ts0 : list tag) (t : tag) (records : list entry) :
  forallb well_formed (ts0 ++ [t]) = true ->
  parse_record records (flat_map render (ts0 ++ [t]))
  = records ++ [entry_of (ts0 ++ [t])].
Proof.
  intros Hwf. unfold parse_record. rewrite py_strip_tags.
  assert (Hwf' : forallb well_formed (ts0 ++ [rstrip_value t]) = true).
  { rewrite forallb_app in *. apply andb_true_iff in Hwf as [-> Ht].
    simpl in *. apply andb_true_iff in Ht as [Ht _].
    rewrite (well_formed_rstrip _ Ht). reflexivity. }
  rewrite (finditer_tags _ Hwf'). fold (entry_of (ts0 ++ [rstrip_value t])).
  rewrite entry_of_rstrip.
  rewrite bool_decide_eq_false_2 by apply entry_of_nonempty.
  rewrite flat_map_app. cbn [flat_map]. rewrite app_nil_r.
  unfold render at 2. rewrite app_assoc.
  destruct (tags_start ts0 (rstrip_value t)) as (a & ->). reflexivity.
Qed.



(** ** Examples *)

(** [float] on strings, as CPython answers. *)
Example py_float_examples :
  py_float (str "40.00") = Some 40%float
  /\ py_float (str "074.0") = Some 74%float
  /\ py_float (str "-1_0.5e1 ") = Some (-105)%float
  /\ py_float (str "1.e5") = Some 100000%float
  /\ py_float (str ".5") = Some (1 / 2)%float
  /\ py_float (str "0.1") = Some (1 / 10)%float
  /\ py_float (str "9007199254740993") = Some 9007199254740992%float
  /\ py_float (str "1e400") = Some infinity
  /\ py_float (str "+inf") = Some infinity
  /\ py_float (str "-InFiNiTy") = Some neg_infinity
  /\ py_float (str "-nan") = Some nan
  /\ py_float (str "1.5" ++ [160]) = Some (3 / 2)%float
  /\ py_float (8192 :: str "1.5") = Some (3 / 2)%float
  /\ py_float (str "1.5" ++ [28]) = None
  /\ py_float (str "1_") = None
  /\ py_float (str "_1") = None
  /\ py_float (str "1__0") = None
  /\ py_float (str "1e_5") = None
  /\ py_float (str "1_.5") = None
  /\ py_float (str ".e5") = None
  /\ py_float (str "1e+") = None
  /\ py_float (str "0x10") = None
  /\ py_float (str "+ 1") = None
  /\ py_float (str "--1") = None
  /\ py_float (str "") = None.
Proof. vm_compute. repeat split; reflexivity. Qed.

(** The input of the repository's test, [test_parse_simple_adif]: two
    records, the calls TEST1 and TEST2; the name GRIDSquare is stored in
    upper case, and both records resolve, the first through its grid
    square and the second through LAT and LON. *)
Example test_parse_simple_adif :
  let content :=
    str "<CALL:5>TEST1<QSO_DATE:8>20250101<TIME_ON:4>1234<GRIDSquare:4>FN20<EOR>"
    ++ [10]
    ++ str "<CALL:5>TEST2<QSO_DATE:8>20250102<TIME_ON:4>2345<LAT:6>40.00N<LON:7>074.0W<EOR>"
    ++ [10] in
  map (fun r : entry => (r !! str "CALL", r !! str "GRIDSQUARE"))
      (parse_adif content)
  = [(Some (str "TEST1"), Some (str "FN20")); (Some (str "TEST2"), None)]
  /\ match build_map_points (parse_adif content) with
     | Ret (points, skipped) =>
         map (fun p : float * float * entry => (p.1.1, p.1.2, p.2 !! str "CALL"))
             points
         = [(40.5%float, (-75)%float, Some (str "TEST1"));
            (40%float, (-74)%float, Some (str "TEST2"))]
         /\ skipped = 0
     | Raise _ => False
     end.
Proof. vm_compute. repeat split; reflexivity. Qed.

(** * Further properties *)

(** ** More on strings *)

Lemma between_spec (lo hi c : Z) : between lo hi c = true <-> lo <= c <= hi.
Proof. unfold between. rewrite andb_true_iff, !Z.leb_le. reflexivity. Qed.

Lemma between_false (lo hi c : Z) : between lo hi c = false <-> c < lo \/ hi < c.
Proof.
  unfold between. rewrite andb_false_iff, !Z.leb_gt. reflexivity.
Qed.

Lemma upper_char_lower (c : Z) : 97 <= c <= 122 -> upper_char c = [c - 32].
Proof.
  intros H. unfold upper_char. rewrite (proj2 (between_spec 97 122 c) H).
  reflexivity.
Qed.

Lemma upper_char_fixed (c : Z) :
  c < 97 \/ 122 < c < 181 \/ 181 < c < 223 \/ c = 247 \/ 255 < c ->
  upper_char c = [c].
Proof.
  intros H. unfold upper_char.
  rewrite (proj2 (between_false 97 122 c)) by lia.
  destruct (Z.eqb_spec c 181); [lia|]. destruct (Z.eqb_spec c 223); [lia|].
  rewrite (proj2 (between_false 224 246 c)) by lia.
  rewrite (proj2 (between_false 248 254 c)) by lia.
  destruct (Z.eqb_spec c 255); [lia|]. reflexivity.
Qed.

(** [upper] yields one to two characters, each its own upper case. *)
Lemma upper_char_cases (c : Z) :
  (exists d, upper_char c = [d] /\ upper_char d = [d])
  \/ (c = 223 /\ upper_char c = [83; 83]).
Proof.
  unfold upper_char at 1.
  destruct (between 97 122 c) eqn:H1.
  { apply between_spec in H1. left. eexists. split; [reflexivity|].
    apply upper_char_fixed. lia. }
  apply between_false in H1.
  destruct (Z.eqb_spec c 181).
  { left. eexists. split; [reflexivity|]. apply upper_char_fixed. lia. }
  destruct (Z.eqb_spec c 223); [right; split; [assumption | subst c; reflexivity]|].
  destruct (between 224 246 c || between 248 254 c) eqn:H2.
  { left. eexists. split; [reflexivity|]. apply upper_char_fixed.
    apply orb_true_iff in H2 as [H2 | H2]; apply between_spec in H2; lia. }
  apply orb_false_iff in H2 as [H2 H3].
  apply between_false in H2. apply between_false in H3.
  destruct (Z.eqb_spec c 255).
  { left. eexists. split; [reflexivity|]. apply upper_char_fixed. lia. }
  left. exists c. split; [reflexivity|]. apply upper_char_fixed. lia.
Qed.

(** [upper] is idempotent. *)
Lemma py_upper_idem (s : pystr) : py_upper (py_upper s) = py_upper s.
Proof.
  unfold py_upper. induction s as [|c s IH]; [reflexivity|].
  cbn [flat_map]. rewrite flat_map_app, IH. f_equal.
  destruct (upper_char_cases c) as [(d & -> & Hd) | (_ & ->)].
  - cbn [flat_map]. rewrite Hd. reflexivity.
  - reflexivity.
Qed.

Lemma lstrip_by_head (ws : Z -> bool) (s : pystr) :
  lstrip_by ws s = []
  \/ exists x l, lstrip_by ws s = x :: l /\ ws x = false.
Proof.
  induction s as [|c s IH]; [left; reflexivity|]. simpl.
  destruct (ws c) eqn:Hc; [exact IH|]. right. exists c, s. split; auto.
Qed.

Lemma lstrip_by_idem (ws : Z -> bool) (s : pystr) :
  lstrip_by ws (lstrip_by ws s) = lstrip_by ws s.
Proof.
  destruct (lstrip_by_head ws s) as [-> | (x & l & -> & Hx)]; [reflexivity|].
  simpl. rewrite Hx. reflexivity.
Qed.

Lemma rstrip_by_idem (ws : Z -> bool) (s : pystr) :
  rstrip_by ws (rstrip_by ws s) = rstrip_by ws s.
Proof.
  unfold rstrip_by. rewrite rev_involutive, lstrip_by_idem. reflexivity.
Qed.

Lemma rstrip_by_cons (ws : Z -> bool) (x : Z) (l : pystr) :
  ws x = false -> rstrip_by ws (x :: l) = x :: rstrip_by ws l.
Proof. intros Hx. exact (rstrip_by_stop ws [] x l Hx). Qed.

(** What [strip] returns is empty or begins and ends with a character that
    is not white space. *)
Lemma strip_by_fixed (ws : Z -> bool) (s : pystr) :
  lstrip_by ws (strip_by ws s) = strip_by ws s
  /\ rstrip_by ws (strip_by ws s) = strip_by ws s.
Proof.
  unfold strip_by. split; [|apply rstrip_by_idem].
  destruct (lstrip_by_head ws s) as [-> | (x & l & -> & Hx)]; [reflexivity|].
  rewrite (rstrip_by_cons _ _ _ Hx). simpl. rewrite Hx. reflexivity.
Qed.

(** [strip] is idempotent. *)
Lemma strip_by_idem (ws : Z -> bool) (s : pystr) :
  strip_by ws (strip_by ws s) = strip_by ws s.
Proof.
  destruct (strip_by_fixed ws s) as [Hl Hr].
  unfold strip_by at 1. rewrite Hl. exact Hr.
Qed.

Lemma py_strip_idem (s : pystr) : py_strip (py_strip s) = py_strip s.
Proof. apply strip_by_idem. Qed.

Lemma forallb_lstrip (p ws : Z -> bool) (s : pystr) :
  forallb p s = true -> forallb p (lstrip_by ws s) = true.
Proof.
  induction s as [|c s IH]; [reflexivity|]. intros H. simpl.
  destruct (ws c); [|exact H]. simpl in H.
  apply andb_true_iff in H as [_ H]. auto.
Qed.

Lemma forallb_rstrip (p ws : Z -> bool) (s : pystr) :
  forallb p s = true -> forallb p (rstrip_by ws s) = true.
Proof.
  intros H. destruct (rstrip_by_decompose ws s) as (w & Hs & _).
  rewrite Hs, forallb_app in H. apply andb_true_iff in H as [H _]. exact H.
Qed.

Lemma forallb_strip (p ws : Z -> bool) (s : pystr) :
  forallb p s = true -> forallb p (strip_by ws s) = true.
Proof. intros H. apply forallb_rstrip, forallb_lstrip, H. Qed.

(** ** Invariants of the records [parse_adif] returns *)

Lemma span_fst (p : Z -> bool) (s : pystr) : forallb p (span p s).1 = true.
Proof.
  induction s as [|c s IH]; [reflexivity|]. simpl.
  destruct (p c) eqn:Hc; [|reflexivity].
  destruct (span p s) as [a b]. simpl in *. rewrite Hc. exact IH.
Qed.

Lemma span_eq (p : Z -> bool) (s a b : pystr) :
  span p s = (a, b) -> forallb p a = true /\ s = a ++ b.
Proof.
  revert a b. induction s as [|c s IH]; intros a b H; simpl in H.
  - injection H as <- <-. split; reflexivity.
  - destruct (p c) eqn:Hc.
    + destruct (span p s) as [a' b'] eqn:E. injection H as <- <-.
      destruct (IH _ _ eq_refl) as [Ha Hs]. split.
      * simpl. rewrite Hc. exact Ha.
      * simpl. rewrite Hs. reflexivity.
    + injection H as <- <-. split; reflexivity.
Qed.

Lemma span_rest (p : Z -> bool) (s a : pystr) (c : Z) (b : pystr) :
  span p s = (a, c :: b) -> p c = false.
Proof.
  revert a. induction s as [|x s IH]; intros a H; simpl in H; [discriminate|].
  destruct (p x) eqn:Hx.
  - destruct (span p s) as [a' b']. injection H as <- ->. exact (IH _ eq_refl).
  - injection H as <- -> ->. exact Hx.
Qed.

(** A literal character in a pattern: the cases of the match other than
    the literal are refuted. *)
Ltac literal c H :=
  destruct c as [|?p|?p]; try discriminate H;
  repeat (match goal with
          | p : positive |- _ => destruct p as [p|p|]; try discriminate H
          end).

(** What a match of the field pattern holds. *)
Lemma match_field_inv (s : pystr) (m : field_match) :
  match_field s = Some m ->
  m_name m <> [] /\ forallb is_name_char (m_name m) = true
  /\ m_length m <> [] /\ forallb isdecimal (m_length m) = true
  /\ forallb (fun c => negb (c =? 60)) (m_value m) = true.
Proof.
  intros H. destruct s as [|c r0]; [discriminate|].
  literal c H. cbn [match_field] in H.
  destruct (span is_name_char r0) as [name r1] eqn:En.
  destruct name as [|n0 name]; [discriminate|].
  destruct r1 as [|c1 r2]; [discriminate|].
  literal c1 H.
  destruct (span isdecimal r2) as [ds r3] eqn:Ed.
  destruct ds as [|d0 ds]; [discriminate|].
  destruct r3 as [|c3 r4]; [discriminate|].
  assert (Hv : forall ntc r6,
             (let '(v, _) := span (fun c => negb (c =? 60)) r6 in
              Some {| m_name := n0 :: name; m_length := d0 :: ds; m_value := v;
                      m_size := (1 + length (n0 :: name) + 1 + length (d0 :: ds)
                                 + ntc + 1 + length v)%nat |}) = Some m ->
             m_name m <> [] /\ forallb is_name_char (m_name m) = true
             /\ m_length m <> [] /\ forallb isdecimal (m_length m) = true
             /\ forallb (fun c => negb (c =? 60)) (m_value m) = true).
  { intros ntc r6 E.
    pose proof (span_fst (fun c => negb (c =? 60)) r6) as Hval.
    destruct (span (fun c => negb (c =? 60)) r6) as [v r7].
    injection E as <-. cbn [m_name m_length m_value].
    repeat split; try discriminate.
    - exact (proj1 (span_eq _ _ _ _ En)).
    - exact (proj1 (span_eq _ _ _ _ Ed)).
    - exact Hval. }
  literal c3 H.
  - (* the closing sign *)
    exact (Hv _ _ H).
  - (* a type code *)
    destruct (span (fun c => negb (c =? 62)) r4) as [tc r5] eqn:Et.
    destruct r5 as [|c5 r6]; [discriminate|].
    literal c5 H. exact (Hv _ _ H).
Qed.

Lemma finditer_inv (s : pystr) :
  forall skip,
  Forall (fun m => exists s', match_field s' = Some m) (finditer_field skip s).
Proof.
  induction s as [|c s IH]; intros skip; [constructor|].
  cbn [finditer_field]. destruct skip as [|k]; [|apply IH].
  destruct (match_field (c :: s)) as [m|] eqn:E; [|apply IH].
  constructor; [eauto | apply IH].
Qed.

Lemma upper_name_char (c : Z) :
  is_name_char c = true ->
  exists d, upper_char c = [d] /\ is_key_char d = true.
Proof.
  unfold is_name_char, is_key_char. intros H.
  destruct (between 97 122 c) eqn:Hl.
  - apply between_spec in Hl. exists (c - 32).
    split; [apply upper_char_lower; exact Hl|].
    rewrite (proj2 (between_spec 65 90 (c - 32))) by lia. reflexivity.
  - exists c. rewrite orb_false_r in H.
    assert (Hc : c < 97).
    { apply between_false in Hl.
      repeat (apply orb_true_iff in H as [H | H]);
        try (apply between_spec in H; lia).
      apply Z.eqb_eq in H. lia. }
    split; [apply upper_char_fixed; lia|].
    rewrite <- H. destruct (between 65 90 c); reflexivity.
Qed.

Lemma upper_name (name : pystr) :
  name <> [] -> forallb is_name_char name = true -> key_ok (py_upper name).
Proof.
  intros Hne Hn. split.
  - destruct name as [|c name]; [congruence|]. simpl in Hn.
    apply andb_true_iff in Hn as [Hc _].
    destruct (upper_name_char c Hc) as (d & Hd & _).
    unfold py_upper. cbn [flat_map]. rewrite Hd. discriminate.
  - clear Hne. unfold py_upper.
    induction name as [|c name IH]; [reflexivity|]. simpl in Hn.
    apply andb_true_iff in Hn as [Hc Hn].
    destruct (upper_name_char c Hc) as (d & Hd & Hk).
    cbn [flat_map]. rewrite Hd. simpl. rewrite Hk. exact (IH Hn).
Qed.

Lemma store_field_ok (e : entry) (m : field_match) :
  (exists s, match_field s = Some m) -> fields_ok e ->
  fields_ok (store_field e m).
Proof.
  intros (s & Hm) He.
  destruct (match_field_inv _ _ Hm) as (Hn & Hnc & _ & _ & Hv).
  intros k v. unfold store_field.
  destruct (decide (py_upper (m_name m) = k)) as [<- | Hk].
  - rewrite lookup_insert_eq. intros [= <-]. split.
    + apply upper_name; assumption.
    + split; [apply py_strip_idem|].
      apply forallb_strip, forallb_take. exact Hv.
  - rewrite lookup_insert_ne by exact Hk. apply He.
Qed.

Lemma fold_store_ok (ms : list field_match) :
  Forall (fun m => exists s, match_field s = Some m) ms ->
  forall e, fields_ok e -> fields_ok (fold_left store_field ms e).
Proof.
  induction 1 as [|m ms Hm Hms IH]; intros e He; [exact He|].
  cbn [fold_left]. apply IH, store_field_ok; assumption.
Qed.

Lemma parse_record_ok (records : list entry) (raw : pystr) :
  Forall (fun e => e <> ∅ /\ fields_ok e) records ->
  Forall (fun e => e <> ∅ /\ fields_ok e) (parse_record records raw).
Proof.
  intros H. unfold parse_record.
  destruct (negb (truthy (py_strip raw))); [exact H|].
  match goal with |- context [bool_decide ?P] => destruct (bool_decide_reflect P) as [E | E] end;
    [exact H|].
  cbn [negb]. apply Forall_app. split; [exact H|].
  constructor; [|constructor]. split; [exact E|].
  apply fold_store_ok; [apply finditer_inv|].
  intros k v Hk. rewrite lookup_empty in Hk. discriminate.
Qed.

Lemma parse_adif_ok (content : pystr) :
  Forall (fun e => e <> ∅ /\ fields_ok e) (parse_adif content).
Proof.
  unfold parse_adif.
  generalize (split_ci eor 0
                (match search_ci eoh content with
                 | Some rest => rest
                 | None => content
                 end)).
  intros raws.
  assert (H : Forall (fun e : entry => e <> ∅ /\ fields_ok e) [])
    by constructor.
  revert H. generalize (@nil entry).
  induction raws as [|raw raws IH]; intros records H; [exact H|].
  cbn [fold_left]. apply IH, parse_record_ok, H.
Qed.

(** X1: Whatever the text, no record [parse_adif] returns is empty, and every
    key of every record is a non-empty string of capital letters, digits
    and underscores. *)
Theorem parse_adif_keys (content : pystr) :
  Forall (fun e : entry =>
            e <> ∅
            /\ forall k, is_Some (e !! k) ->
                 k <> [] /\ forallb is_key_char k = true)
         (parse_adif content).
Proof.
  eapply Forall_impl; [apply parse_adif_ok|]. cbv beta.
  intros e [Hne He]. split; [exact Hne|].
  intros k [v Hk]. exact (proj1 (He k v Hk)).
Qed.

(** X2: Whatever the text, every value of every record [parse_adif] returns
    is trimmed ([strip] leaves it as it is) and holds no less-than
    sign. *)
Theorem parse_adif_values (content : pystr) :
  Forall (fun e : entry =>
            forall k v, e !! k = Some v ->
              py_strip v = v /\ forallb (fun c => negb (c =? 60)) v = true)
         (parse_adif content).
Proof.
  eapply Forall_impl; [apply parse_adif_ok|]. cbv beta.
  intros e [_ He] k v Hk. exact (proj2 (He k v Hk)).
Qed.

(** ** Text without tags *)

Lemma match_field_head (s : pystr) (m : field_match) :
  match_field s = Some m -> exists r, s = 60 :: r.
Proof.
  intros H. destruct s as [|c r0]; [discriminate|].
  literal c H. eauto.
Qed.

Lemma match_field_not_lt (c : Z) (s : pystr) :
  (c =? 60) = false -> match_field (c :: s) = None.
Proof.
  intros Hc. destruct (match_field (c :: s)) as [m|] eqn:E; [|reflexivity].
  destruct (match_field_head _ _ E) as (r & [= -> _]). discriminate.
Qed.

Lemma starts_ci_not_lt (tl : pystr) (c : Z) (s : pystr) :
  (c =? 60) = false -> starts_ci (60 :: tl) (c :: s) = false.
Proof.
  intros Hc. cbn [starts_ci]. unfold ci_eqb. rewrite Hc.
  unfold ascii_lower. destruct (between 65 90 c) eqn:Hb.
  - apply between_spec in Hb. destruct (Z.eqb_spec (c + 32) 60); [lia|].
    reflexivity.
  - rewrite Hc. reflexivity.
Qed.

(** Text before the first less-than sign does not matter to the scan for
    tags, to the search for a marker, or to the split, which leaves it at
    the head of the first piece. *)
Lemma finditer_junk (junk s : pystr) :
  forallb (fun c => negb (c =? 60)) junk = true ->
  finditer_field 0 (junk ++ s) = finditer_field 0 s.
Proof.
  induction junk as [|c junk IH]; intros H; [reflexivity|].
  simpl in H. apply andb_true_iff in H as [Hc H].
  apply negb_true_iff in Hc.
  cbn [app finditer_field]. change ((c :: junk) ++ s) with (c :: junk ++ s).
  rewrite (match_field_not_lt _ _ Hc). exact (IH H).
Qed.

Lemma search_ci_junk (tl junk s : pystr) :
  forallb (fun c => negb (c =? 60)) junk = true ->
  search_ci (60 :: tl) (junk ++ s) = search_ci (60 :: tl) s.
Proof.
  induction junk as [|c junk IH]; intros H; [reflexivity|].
  simpl in H. apply andb_true_iff in H as [Hc H].
  apply negb_true_iff in Hc.
  rewrite search_ci_eq. cbn [app].
  rewrite (starts_ci_not_lt _ _ _ Hc). exact (IH H).
Qed.

Lemma split_ci_nonempty (pat s : pystr) :
  forall skip, split_ci pat skip s <> [].
Proof.
  induction s as [|c s IH]; intros skip; [discriminate|].
  cbn [split_ci]. destruct skip as [|k]; [|apply IH].
  destruct (starts_ci pat (c :: s)); [discriminate|].
  destruct (split_ci pat 0 s); discriminate.
Qed.

Lemma split_ci_junk (tl junk s : pystr) :
  forallb (fun c => negb (c =? 60)) junk = true ->
  exists p ps,
    split_ci (60 :: tl) 0 s = p :: ps
    /\ split_ci (60 :: tl) 0 (junk ++ s) = (junk ++ p) :: ps.
Proof.
  induction junk as [|c junk IH]; intros H.
  - destruct (split_ci (60 :: tl) 0 s) as [|p ps] eqn:E.
    + destruct (split_ci_nonempty _ _ _ E).
    + exists p, ps. split; [reflexivity | exact E].
  - simpl in H. apply andb_true_iff in H as [Hc H].
    apply negb_true_iff in Hc.
    destruct (IH H) as (p & ps & E1 & E2). exists p, ps.
    split; [exact E1|]. cbn [app split_ci].
    rewrite (starts_ci_not_lt _ _ _ Hc), E2. reflexivity.
Qed.

Lemma finditer_no_lt (s : pystr) :
  forallb (fun c => negb (c =? 60)) s = true -> finditer_field 0 s = [].
Proof.
  intros H. rewrite <- (app_nil_r s). rewrite (finditer_junk _ _ H).
  reflexivity.
Qed.

(** A chunk without less-than sign adds no record. *)
Lemma parse_record_no_lt (records : list entry) (raw : pystr) :
  forallb (fun c => negb (c =? 60)) raw = true ->
  parse_record records raw = records.
Proof.
  intros H. apply parse_record_nothing. right.
  apply finditer_no_lt, forallb_strip, H.
Qed.

(** In a chunk, what stands before the first less-than sign is ignored. *)
Lemma parse_record_junk (records : list entry) (junk r : pystr) :
  forallb (fun c => negb (c =? 60)) junk = true ->
  parse_record records (junk ++ 60 :: r) = parse_record records (60 :: r).
Proof.
  intros H. unfold parse_record.
  assert (E1 : py_strip (junk ++ 60 :: r)
               = lstrip_by isspace junk ++ 60 :: rstrip_by isspace r).
  { unfold py_strip, strip_by.
    rewrite (lstrip_by_stop isspace junk 60 r eq_refl).
    apply rstrip_by_stop. reflexivity. }
  assert (E2 : py_strip (60 :: r) = 60 :: rstrip_by isspace r).
  { unfold py_strip, strip_by. cbn [lstrip_by].
    change (isspace 60) with false. cbn iota.
    apply rstrip_by_cons. reflexivity. }
  rewrite E1, E2.
  rewrite (finditer_junk (lstrip_by isspace junk)) by (apply forallb_lstrip, H).
  destruct (lstrip_by isspace junk); reflexivity.
Qed.

(** X3: A text without any less-than sign holds no record. *)
Theorem parse_adif_no_tag (content : pystr) :
  forallb (fun c => negb (c =? 60)) content = true -> parse_adif content = [].
Proof.
  intros H. unfold parse_adif.
  assert (Hs : forall tl, search_ci (60 :: tl) content = None).
  { intros tl. rewrite <- (app_nil_r content), (search_ci_junk _ _ _ H).
    reflexivity. }
  destruct eoh_marker as [-> _]. rewrite Hs.
  destruct eor_marker as [-> _]. rewrite (split_ci_none _ _ (Hs _)).
  cbn [fold_left]. apply parse_record_no_lt, H.
Qed.

Lemma parse_adif_no_tag_witness :
  parse_adif (str "CALL:5 K1ABC, no tags here") = [].
Proof. apply parse_adif_no_tag. reflexivity. Defined.

(** X4: The text [parse_adif] is given may begin with anything that holds no
    less-than sign: the records are those of the rest. *)
Theorem parse_adif_leading_text (junk content : pystr) :
  forallb (fun c => negb (c =? 60)) junk = true ->
  parse_adif (junk ++ content) = parse_adif content.
Proof.
  intros H. unfold parse_adif.
  destruct eoh_marker as [-> _]. rewrite (search_ci_junk _ _ _ H).
  destruct (search_ci (60 :: str "eoh>") content) as [rest|]; [reflexivity|].
  destruct eor_marker as [-> _].
  destruct (split_ci_junk (str "eor>") junk content H) as (p & ps & E1 & E2).
  rewrite E1, E2. cbn [fold_left]. f_equal.
  (* the first piece is empty, or begins where [content] begins *)
  destruct (span (fun c => negb (c =? 60)) p) as [j2 q] eqn:Ep.
  destruct (span_eq _ _ _ _ Ep) as [Hj2 Hp].
  destruct q as [|c q]; rewrite Hp.
  - rewrite app_nil_r.
    rewrite !parse_record_no_lt; [reflexivity | exact Hj2 |].
    rewrite forallb_app, H, Hj2. reflexivity.
  - assert (Hc : c = 60).
    { pose proof (span_rest _ _ _ _ _ Ep) as Hx.
      apply negb_false_iff, Z.eqb_eq in Hx. exact Hx. }
    subst c. rewrite app_assoc.
    rewrite (parse_record_junk [] (junk ++ j2)), (parse_record_junk [] j2);
      [reflexivity | exact Hj2 |].
    rewrite forallb_app, H, Hj2. reflexivity.
Qed.

Lemma parse_adif_leading_text_witness :
  parse_adif (str "Exported by a logger, 2 > 1. " ++ str "<CALL:5>K1ABC<EOR>")
  = parse_adif (str "<CALL:5>K1ABC<EOR>").
Proof. apply parse_adif_leading_text. reflexivity. Defined.

(** ** More on [maidenhead_to_latlon] *)

Lemma isdigit_pair (g : pystr) (i : nat) :
  (i + 2 <= length g)%nat -> str_isdigit (slice g i (i + 2)) = true ->
  isdigit (at_ g i) = true /\ isdigit (at_ g (S i)) = true.
Proof.
  revert g. induction i as [|i IH]; intros g Hlen H.
  - destruct g as [|a [|b g]]; simpl in Hlen; try lia.
    unfold str_isdigit, slice in H. simpl in H.
    apply andb_true_iff in H as [Ha H]. apply andb_true_iff in H as [Hb _].
    split; assumption.
  - destruct g as [|a g]; simpl in Hlen; [lia|].
    apply (IH g); [lia|]. exact H.
Qed.

(** Closes a goal whose hypothesis says that a run that only returns
    has raised. *)
Ltac returns_not_raises H :=
  cbn [mbind ctl_bind run negb] in H;
  repeat (match type of H with
          | context [if ?c then _ else _] =>
              destruct c; cbn [mbind ctl_bind run] in H
          end);
  discriminate H.

(** The two [int] calls after a successful [isdigit] test at [i], [i+1]:
    either both characters are decimal digits, or one of them is the
    character asked for. *)
Ltac int_calls g i L D H :=
  let Hi := fresh "Hi" in
  let Hj := fresh "Hj" in
  let Ci := fresh "Ci" in
  let Cj := fresh "Cj" in
  destruct (isdigit_pair g i L D) as [Hi Hj];
  unfold py_int_char in H;
  destruct (isdecimal (at_ g i)) eqn:Ci; cbn [mbind ctl_bind run] in H;
    [|exists i; repeat split; [lia | assumption | assumption]];
  destruct (isdecimal (at_ g (S i))) eqn:Cj; cbn [mbind ctl_bind run] in H;
    [|exists (S i); repeat split; [lia | assumption | assumption]].

(** When [maidenhead_to_latlon] raises, a character in position 2, 3, 6
    or 7 of the normalised grid is a digit for [isdigit] that [int] does
    not convert. *)
Lemma maidenhead_raise_inv (grid : pystr) (ex : exn) :
  maidenhead_to_latlon grid = Raise ex ->
  let g := py_upper (py_strip grid) in
  exists i, (i < length g)%nat
            /\ isdigit (at_ g i) = true /\ isdecimal (at_ g i) = false.
Proof.
  intros H g. unfold maidenhead_to_latlon in H. fold g in H.
  destruct (truthy grid); cbn [negb mbind ctl_bind run] in H; [|discriminate].
  destruct (length g <? 2)%nat; cbn [mbind ctl_bind run] in H; [discriminate|].
  assert (Tail : forall lon lat : num,
    run ('(lon, lat) ←
           (if (6 <=? length g)%nat && isalpha (at_ g 4) && isalpha (at_ g 5) then
              let lon :=
                num_add lon (num_mul (Int (at_ g 4 - 65)) (num_div (Int 2) (Int 24))) in
              let lat :=
                num_add lat (num_mul (Int (at_ g 5 - 65)) (num_div (Int 1) (Int 24))) in
              Next (lon, lat)
            else if (length g =? 5)%nat then Return None
            else Next (lon, lat));
         '(lon, lat) ←
           (if (8 <=? length g)%nat && str_isdigit (slice g 6 8) then
              d6 ← py_int_char (at_ g 6);
              let lon := num_add lon (num_mul (Int d6) (num_div (Int 2) (Int 240))) in
              d7 ← py_int_char (at_ g 7);
              let lat := num_add lat (num_mul (Int d7) (num_div (Int 1) (Int 240))) in
              Next (lon, lat)
            else if (length g =? 7)%nat then Return None
            else Next (lon, lat));
         let cell_lon := 20%float in
         let cell_lat := 10%float in
         let '(cell_lon, cell_lat) :=
           if (4 <=? length g)%nat then (2%float, 1%float) else (cell_lon, cell_lat) in
         let '(cell_lon, cell_lat) :=
           if (6 <=? length g)%nat then ((2 / 24)%float, (1 / 24)%float)
           else (cell_lon, cell_lat) in
         let '(cell_lon, cell_lat) :=
           if (8 <=? length g)%nat then ((2 / 240)%float, (1 / 240)%float)
           else (cell_lon, cell_lat) in
         Next (Some (to_float (num_add lat (Flt (cell_lat / 2)%float)),
                     to_float (num_add lon (Flt (cell_lon / 2)%float)))))
    = Raise ex ->
    exists i, (i < length g)%nat
              /\ isdigit (at_ g i) = true /\ isdecimal (at_ g i) = false).
  { clear H. intros lon lat H.
    destruct ((6 <=? length g)%nat && isalpha (at_ g 4) && isalpha (at_ g 5));
      cbn [mbind ctl_bind run] in H;
      [|destruct (length g =? 5)%nat; cbn [mbind ctl_bind run] in H;
        [discriminate|]];
      (destruct ((8 <=? length g)%nat && str_isdigit (slice g 6 8)) eqn:E8;
       [apply andb_true_iff in E8 as [L8 D8]; apply Nat.leb_le in L8;
        int_calls g 6%nat L8 D8 H; returns_not_raises H
       |returns_not_raises H]). }
  destruct ((4 <=? length g)%nat && str_isdigit (slice g 2 4)) eqn:E2.
  - apply andb_true_iff in E2 as [L2 D2]. apply Nat.leb_le in L2.
    int_calls g 2%nat L2 D2 H. exact (Tail _ _ H).
  - destruct (3 <=? length g)%nat; cbn [mbind ctl_bind run] in H;
      [discriminate|]. exact (Tail _ _ H).
Qed.

Lemma forallb_nth (p : Z -> bool) (g : pystr) (i : nat) :
  forallb p g = true -> (i < length g)%nat -> p (nth i g 0) = true.
Proof.
  intros H Hi. rewrite forallb_forall in H. apply H, nth_In, Hi.
Qed.

Lemma upper_char_ascii (c : Z) :
  0 <= c < 128 -> is_ascii (upper_char c) = true.
Proof.
  intros Hc. destruct (between 97 122 c) eqn:Hl.
  - apply between_spec in Hl. rewrite (upper_char_lower _ Hl).
    unfold is_ascii. cbn [forallb].
    destruct (Z.leb_spec 0 (c - 32)); [|lia].
    destruct (Z.ltb_spec (c - 32) 128); [reflexivity | lia].
  - apply between_false in Hl. rewrite upper_char_fixed by lia.
    unfold is_ascii. cbn [forallb].
    destruct (Z.leb_spec 0 c); [|lia].
    destruct (Z.ltb_spec c 128); [reflexivity | lia].
Qed.

Lemma py_upper_ascii (s : pystr) : is_ascii s = true -> is_ascii (py_upper s) = true.
Proof.
  unfold is_ascii, py_upper. induction s as [|c s IH]; [reflexivity|].
  intros H. simpl in H. apply andb_true_iff in H as [Hc H].
  cbn [flat_map]. rewrite forallb_app, (IH H), andb_true_r.
  apply upper_char_ascii. lia.
Qed.

Lemma maidenhead_ascii_ret (grid : pystr) :
  is_ascii grid = true -> exists r, maidenhead_to_latlon grid = Ret r.
Proof.
  intros Ha. destruct (maidenhead_to_latlon grid) as [r | ex] eqn:E; [eauto|].
  exfalso. destruct (maidenhead_raise_inv _ _ E) as (i & Hi & Hd & Hc).
  assert (Hg : is_ascii (py_upper (py_strip grid)) = true)
    by (apply py_upper_ascii, forallb_strip, Ha).
  pose proof (forallb_nth _ _ i Hg Hi) as Hb. cbv beta in Hb.
  unfold at_ in *. unfold isdigit in Hd. rewrite Hc in Hd. simpl in Hd.
  destruct (Z.eqb_spec (nth i (py_upper (py_strip grid)) 0) 178); [lia|].
  destruct (Z.eqb_spec (nth i (py_upper (py_strip grid)) 0) 179); [lia|].
  destruct (Z.eqb_spec (nth i (py_upper (py_strip grid)) 0) 185); [lia|].
  discriminate.
Qed.

(** X5: On a grid square of ASCII characters [maidenhead_to_latlon] does not
    raise: it returns a coordinate or [None]. *)
Theorem maidenhead_ascii_returns (grid : pystr) :
  is_ascii grid = true -> exists r, maidenhead_to_latlon grid = Ret r.
Proof. exact (maidenhead_ascii_ret grid). Qed.

Lemma maidenhead_ascii_returns_witness :
  exists r, maidenhead_to_latlon (str " jn58td ") = Ret r.
Proof. apply maidenhead_ascii_returns. reflexivity. Defined.

Lemma isspace_spec (c : Z) :
  isspace c = true <->
  9 <= c <= 13 \/ 28 <= c <= 32 \/ c = 133 \/ c = 160 \/ c = 5760
  \/ 8192 <= c <= 8202 \/ c = 8232 \/ c = 8233 \/ c = 8239 \/ c = 8287
  \/ c = 12288.
Proof.
  unfold isspace. rewrite !orb_true_iff, !between_spec, !Z.eqb_eq. tauto.
Qed.

Lemma isspace_false (c : Z) :
  ~ (9 <= c <= 13 \/ 28 <= c <= 32 \/ c = 133 \/ c = 160 \/ c = 5760
     \/ 8192 <= c <= 8202 \/ c = 8232 \/ c = 8233 \/ c = 8239 \/ c = 8287
     \/ c = 12288) ->
  isspace c = false.
Proof.
  intros H. destruct (isspace c) eqn:E; [|reflexivity].
  apply isspace_spec in E. contradiction.
Qed.

(** [upper] makes no white space out of another character. *)
Lemma upper_char_nospace (c : Z) :
  isspace c = false -> forallb (fun d => negb (isspace d)) (upper_char c) = true.
Proof.
  intros Hc.
  assert (Hn : ~ (9 <= c <= 13 \/ 28 <= c <= 32 \/ c = 133 \/ c = 160
                  \/ c = 5760 \/ 8192 <= c <= 8202 \/ c = 8232 \/ c = 8233
                  \/ c = 8239 \/ c = 8287 \/ c = 12288)).
  { intros H. apply isspace_spec in H. congruence. }
  unfold upper_char.
  destruct (between 97 122 c) eqn:H1.
  { apply between_spec in H1. cbn [forallb].
    rewrite isspace_false by lia. reflexivity. }
  destruct (Z.eqb_spec c 181); [reflexivity|].
  destruct (Z.eqb_spec c 223); [reflexivity|].
  destruct (between 224 246 c || between 248 254 c) eqn:H2.
  { apply orb_true_iff in H2 as [H2 | H2]; apply between_spec in H2;
      cbn [forallb]; rewrite isspace_false by lia; reflexivity. }
  destruct (Z.eqb_spec c 255); [reflexivity|].
  cbn [forallb]. rewrite Hc. reflexivity.
Qed.

Lemma upper_char_nonempty (c : Z) : upper_char c <> [].
Proof.
  pose proof (truthy_upper_char c) as H.
  destruct (upper_char c); [discriminate | discriminate].
Qed.

Lemma rstrip_by_tail (ws : Z -> bool) (s : pystr) :
  rstrip_by ws s = []
  \/ exists l y, rstrip_by ws s = l ++ [y] /\ ws y = false.
Proof.
  unfold rstrip_by.
  destruct (lstrip_by_head ws (rev s)) as [-> | (x & l & -> & Hx)];
    [left; reflexivity|].
  right. exists (rev l), x. split; [reflexivity | exact Hx].
Qed.

Lemma lstrip_by_nospace (ws : Z -> bool) (u v : pystr) :
  u <> [] -> forallb (fun d => negb (ws d)) u = true ->
  lstrip_by ws (u ++ v) = u ++ v.
Proof.
  intros Hu H. destruct u as [|x u]; [congruence|]. simpl in *.
  apply andb_true_iff in H as [Hx _]. apply negb_true_iff in Hx.
  rewrite Hx. reflexivity.
Qed.

Lemma rstrip_by_nospace (ws : Z -> bool) (v u : pystr) :
  u <> [] -> forallb (fun d => negb (ws d)) u = true ->
  rstrip_by ws (v ++ u) = v ++ u.
Proof.
  intros Hu H. destruct u as [|x u] using rev_ind; [congruence|]. clear IHu.
  rewrite forallb_app in H. apply andb_true_iff in H as [_ Hx].
  simpl in Hx. rewrite andb_true_r in Hx. apply negb_true_iff in Hx.
  rewrite app_assoc, rstrip_by_snoc, Hx. reflexivity.
Qed.

(** The normal form of a grid square is trimmed and in upper case. *)
Lemma grid_norm_idem (grid : pystr) : grid_norm (grid_norm grid) = grid_norm grid.
Proof.
  unfold grid_norm.
  assert (E : py_strip (py_upper (py_strip grid)) = py_upper (py_strip grid)).
  { unfold py_strip at 1. unfold strip_by.
    destruct (strip_by_fixed isspace grid) as [Hl Hr]. fold (py_strip grid) in *.
    remember (py_strip grid) as t eqn:Et. clear Et grid.
    assert (E1 : lstrip_by isspace (py_upper t) = py_upper t).
    { destruct t as [|x t]; [reflexivity|].
      assert (Hx : isspace x = false).
      { destruct (isspace x) eqn:Hx; [|reflexivity]. exfalso.
        simpl in Hl. rewrite Hx in Hl.
        pose proof (f_equal (@length Z) Hl) as Hlen. simpl in Hlen.
        assert (Hle : forall s, (length (lstrip_by isspace s) <= length s)%nat).
        { clear. induction s as [|c s IH]; simpl; [lia|].
          destruct (isspace c); simpl; lia. }
        specialize (Hle t). lia. }
      unfold py_upper. cbn [flat_map].
      apply lstrip_by_nospace;
        [apply upper_char_nonempty | apply upper_char_nospace, Hx]. }
    rewrite E1.
    destruct (rstrip_by_tail isspace t) as [Ht | (l & y & Ht & Hy)];
      rewrite Hr in Ht; subst t; [reflexivity|].
    unfold py_upper. rewrite flat_map_app. cbn [flat_map]. rewrite app_nil_r.
    apply rstrip_by_nospace;
      [apply upper_char_nonempty | apply upper_char_nospace, Hy]. }
  rewrite E. apply py_upper_idem.
Qed.

(** [maidenhead_to_latlon] gives for a grid square what it gives for its
    normal form. *)
Lemma maidenhead_norm (grid : pystr) :
  maidenhead_to_latlon (grid_norm grid) = maidenhead_to_latlon grid.
Proof.
  pose proof (grid_norm_idem grid) as Hn. unfold grid_norm in *.
  unfold maidenhead_to_latlon. rewrite Hn.
  destruct (py_upper (py_strip grid)) as [|x h] eqn:Eh.
  - destruct grid; reflexivity.
  - destruct grid as [|c grid]; [discriminate Eh|]. reflexivity.
Qed.

(** X6: Letter case and white space around a grid square do not matter: two
    grid squares with the same normal form convert alike. *)
Theorem maidenhead_case_and_space (g1 g2 : pystr) :
  py_upper (py_strip g1) = py_upper (py_strip g2) ->
  maidenhead_to_latlon g1 = maidenhead_to_latlon g2.
Proof.
  intros H. rewrite <- (maidenhead_norm g1), <- (maidenhead_norm g2).
  unfold grid_norm. rewrite H. reflexivity.
Qed.

Lemma maidenhead_case_and_space_witness :
  maidenhead_to_latlon (str " jn58td") = maidenhead_to_latlon (str "JN58TD  ").
Proof. apply maidenhead_case_and_space. reflexivity. Defined.

(** X7: Only the first eight characters of the normal form count: two grid
    squares of eight or more characters that agree on them convert
    alike. *)
Theorem maidenhead_beyond_eight (g1 g2 a e1 e2 : pystr) :
  py_upper (py_strip g1) = a ++ e1 ->
  py_upper (py_strip g2) = a ++ e2 ->
  length a = 8%nat ->
  maidenhead_to_latlon g1 = maidenhead_to_latlon g2.
Proof.
  intros H1 H2 Ha.
  do 8 (destruct a as [|? a]; [discriminate Ha|]).
  destruct a; [|discriminate Ha]. clear Ha.
  unfold maidenhead_to_latlon. rewrite H1, H2.
  destruct g1 as [|c1 g1]; [discriminate H1|].
  destruct g2 as [|c2 g2]; [discriminate H2|].
  reflexivity.
Qed.

Lemma maidenhead_beyond_eight_witness :
  maidenhead_to_latlon (str "FN20ab12") = maidenhead_to_latlon (str "fn20AB12xyz").
Proof.
  apply (maidenhead_beyond_eight _ _ (str "FN20AB12") [] (str "XYZ"));
    reflexivity.
Defined.

Lemma forallb_seq (n : nat) (p : nat -> bool) :
  forallb p (seq 0 n) = true -> forall i, (i < n)%nat -> p i = true.
Proof.
  intros H i Hi. rewrite forallb_forall in H. apply H, in_seq. lia.
Qed.

(** X8: A grid square of two letters from A to R, and one of two such letters
    and two digits, converts to the centre of its cell (20 by 10 degrees
    from longitude [20 f1 - 180] and latitude [10 f2 - 90] for the field,
    2 by 1 degrees for the square), and the centre is within the valid
    ranges. *)
Theorem maidenhead_field_and_square (f1 f2 d1 d2 : nat) :
  (f1 < 18)%nat -> (f2 < 18)%nat -> (d1 < 10)%nat -> (d2 < 10)%nat ->
  centre_ok (grid2 f1 f2)
            (10 * Z.of_nat f2 - 90) 10 (20 * Z.of_nat f1 - 180) 20 = true
  /\ centre_ok (grid4 f1 f2 d1 d2)
               (10 * Z.of_nat f2 - 90 + Z.of_nat d2) 1
               (20 * Z.of_nat f1 - 180 + 2 * Z.of_nat d1) 2 = true.
Proof.
  intros Hf1 Hf2 Hd1 Hd2.
  assert (All :
    forallb (fun f1 => forallb (fun f2 =>
      centre_ok (grid2 f1 f2)
                (10 * Z.of_nat f2 - 90) 10 (20 * Z.of_nat f1 - 180) 20
      && forallb (fun d1 => forallb (fun d2 =>
           centre_ok (grid4 f1 f2 d1 d2)
                     (10 * Z.of_nat f2 - 90 + Z.of_nat d2) 1
                     (20 * Z.of_nat f1 - 180 + 2 * Z.of_nat d1) 2)
         (seq 0 10)) (seq 0 10)) (seq 0 18)) (seq 0 18) = true)
    by (vm_compute; reflexivity).
  pose proof (forallb_seq _ _ All f1 Hf1) as A1. cbv beta in A1.
  pose proof (forallb_seq _ _ A1 f2 Hf2) as A2. cbv beta in A2.
  apply andb_true_iff in A2 as [A2 A3]. split; [exact A2|].
  pose proof (forallb_seq _ _ A3 d1 Hd1) as A4. cbv beta in A4.
  exact (forallb_seq _ _ A4 d2 Hd2).
Qed.

(** FN20: field F (5), N (13), square 2, 0. *)
Lemma maidenhead_field_and_square_witness :
  centre_ok (str "FN") 40 10 (-80) 20 = true
  /\ centre_ok (str "FN20") 40 1 (-76) 2 = true.
Proof. apply (maidenhead_field_and_square 5 13 2 0); lia. Defined.

(** ** More on [_parse_coord] and [best_latlon] *)

Lemma in_range_finite (is_lat : bool) (v : float) :
  in_range is_lat v = true ->
  v <> nan /\ v <> infinity /\ v <> neg_infinity.
Proof. intros Hr. repeat split; intros ->; destruct is_lat; discriminate Hr. Qed.

(** X9: [float] reads infinities and NaN, but [_parse_coord] returns none of
    them: what it returns has passed the range test of its axis, which
    refuses all three. *)
Theorem parse_coord_finite (text : pystr) (is_lat : bool) (v : float) :
  _parse_coord text is_lat = Some v ->
  in_range is_lat v = true
  /\ v <> nan /\ v <> infinity /\ v <> neg_infinity.
Proof.
  intros H. destruct (parse_coord_sound _ _ _ H) as [_ Hr].
  split; [exact Hr | exact (in_range_finite _ _ Hr)].
Qed.

Lemma parse_coord_finite_witness :
  in_range false (-74)%float = true
  /\ (-74)%float <> nan /\ (-74)%float <> infinity
  /\ (-74)%float <> neg_infinity.
Proof. apply (parse_coord_finite (str " 074.0w ") false). reflexivity. Defined.

(** The two ways out of [best_latlon] with a coordinate. *)
Lemma best_latlon_some (e : entry) (la lo : float) (src : pystr) :
  best_latlon e = Ret (Some (la, lo, src)) ->
  (src = str "LATLON"
   /\ exists lat lon, e !! str "LAT" = Some lat /\ e !! str "LON" = Some lon
                      /\ parse_latlon lat lon = Some (la, lo))
  \/ (src = str "GRID"
      /\ exists g, grid_of e = Some g /\ g <> []
                   /\ maidenhead_to_latlon g = Ret (Some (la, lo))).
Proof.
  unfold best_latlon. fold (grid_of e). intros H.
  assert (Grid :
    run (_ ← (match grid_of e with
              | Some g =>
                  if truthy g then
                    pair2 ← call (maidenhead_to_latlon g);
                    match pair2 with
                    | Some pr2 => Return (Some (pr2.1, pr2.2, str "GRID"))
                    | None => Next ()
                    end
                  else Next ()
              | None => Next ()
              end);
         Next None) = Ret (Some (la, lo, src)) ->
    src = str "GRID"
    /\ exists g, grid_of e = Some g /\ g <> []
                 /\ maidenhead_to_latlon g = Ret (Some (la, lo))).
  { clear H. intros H. destruct (grid_of e) as [g|]; [|discriminate H].
    destruct g as [|x g]; [discriminate H|]. cbn [truthy] in H.
    destruct (maidenhead_to_latlon (x :: g)) as [[[a b]|]|ex] eqn:Em;
      cbn [call mbind ctl_bind run] in H; try discriminate H.
    injection H as <- <- <-. split; [reflexivity|].
    exists (x :: g). split; [reflexivity|]. split; [discriminate | exact Em]. }
  destruct (e !! str "LAT") as [lat|]; [|right; exact (Grid H)].
  destruct (e !! str "LON") as [lon|]; [|right; exact (Grid H)].
  destruct (truthy lat && truthy lon); [|right; exact (Grid H)].
  destruct (parse_latlon lat lon) as [[a b]|] eqn:Ep; [|right; exact (Grid H)].
  cbn [mbind ctl_bind run] in H. injection H as <- <- <-.
  left. split; [reflexivity|]. exists lat, lon. repeat split. exact Ep.
Qed.

(** X10: A coordinate [best_latlon] returns is tagged LATLON or GRID; one
    tagged LATLON is within the valid ranges, and is neither NaN nor
    infinite. *)
Theorem best_latlon_direct_in_range (e : entry) (la lo : float) (src : pystr) :
  best_latlon e = Ret (Some (la, lo, src)) ->
  (src = str "LATLON" \/ src = str "GRID")
  /\ (src = str "LATLON" ->
      in_range true la = true /\ in_range false lo = true
      /\ la <> nan /\ lo <> nan).
Proof.
  intros H.
  destruct (best_latlon_some _ _ _ _ H)
    as [(-> & lat & lon & _ & _ & Hp) | (-> & _)].
  - split; [left; reflexivity|]. intros _.
    unfold parse_latlon in Hp.
    destruct (_parse_coord lat true) as [x|] eqn:Hx; [|discriminate].
    destruct (_parse_coord lon false) as [y|] eqn:Hy; [|discriminate].
    injection Hp as <- <-.
    destruct (parse_coord_sound _ _ _ Hx) as [_ Rx].
    destruct (parse_coord_sound _ _ _ Hy) as [_ Ry].
    destruct (in_range_finite _ _ Rx) as (? & _).
    destruct (in_range_finite _ _ Ry) as (? & _). auto.
  - split; [right; reflexivity|]. intros E. discriminate E.
Qed.

Lemma best_latlon_direct_in_range_witness :
  (str "LATLON" = str "LATLON" \/ str "LATLON" = str "GRID")
  /\ (str "LATLON" = str "LATLON" ->
      in_range true 40%float = true /\ in_range false (-74)%float = true
      /\ 40%float <> nan /\ (-74)%float <> nan).
Proof.
  apply (best_latlon_direct_in_range
           (<[str "LAT" := str "40.00N"]> (<[str "LON" := str "074.0W"]> ∅))).
  reflexivity.
Defined.

(** X11: [best_latlon] reads four keys only: setting any other key leaves its
    result as it is. *)
Theorem best_latlon_other_keys (e : entry) (k v : pystr) :
  k <> str "LAT" -> k <> str "LON" ->
  k <> str "GRIDSQUARE" -> k <> str "MY_GRIDSQUARE" ->
  best_latlon (<[k := v]> e) = best_latlon e
  /\ best_latlon (delete k e) = best_latlon e.
Proof.
  intros H1 H2 H3 H4. unfold best_latlon.
  rewrite !lookup_insert_ne, !lookup_delete_ne by congruence.
  split; reflexivity.
Qed.

Lemma best_latlon_other_keys_witness :
  best_latlon (<[str "CALL" := str "K1ABC"]> (<[str "GRIDSQUARE" := str "FN20"]> ∅))
  = best_latlon (<[str "GRIDSQUARE" := str "FN20"]> ∅)
  /\ best_latlon (delete (str "CALL") (<[str "GRIDSQUARE" := str "FN20"]> ∅))
     = best_latlon (<[str "GRIDSQUARE" := str "FN20"]> ∅).
Proof. apply best_latlon_other_keys; discriminate. Defined.

(** X12: MY_GRIDSQUARE is read only when GRIDSQUARE is missing or empty: with
    a GRIDSQUARE that is not empty, be it one the converter refuses,
    MY_GRIDSQUARE does not matter. *)
Theorem best_latlon_gridsquare_first (e : entry) (g v : pystr) :
  e !! str "GRIDSQUARE" = Some g -> g <> [] ->
  best_latlon (<[str "MY_GRIDSQUARE" := v]> e) = best_latlon e
  /\ best_latlon (delete (str "MY_GRIDSQUARE") e) = best_latlon e.
Proof.
  intros Hg Hne. unfold best_latlon.
  rewrite (lookup_insert_ne e (str "MY_GRIDSQUARE") (str "LAT")),
    (lookup_insert_ne e (str "MY_GRIDSQUARE") (str "LON")),
    (lookup_insert_ne e (str "MY_GRIDSQUARE") (str "GRIDSQUARE")),
    (lookup_delete_ne e (str "MY_GRIDSQUARE") (str "LAT")),
    (lookup_delete_ne e (str "MY_GRIDSQUARE") (str "LON")),
    (lookup_delete_ne e (str "MY_GRIDSQUARE") (str "GRIDSQUARE"))
    by discriminate.
  rewrite Hg. unfold py_or. rewrite (truthy_true _ Hne).
  split; reflexivity.
Qed.

(** A GRIDSQUARE of one character is refused, and the valid MY_GRIDSQUARE
    is not tried. *)
Lemma best_latlon_gridsquare_first_witness :
  best_latlon (<[str "MY_GRIDSQUARE" := str "FN20"]>
               (<[str "GRIDSQUARE" := str "X"]> ∅))
  = best_latlon (<[str "GRIDSQUARE" := str "X"]> ∅)
  /\ best_latlon (delete (str "MY_GRIDSQUARE") (<[str "GRIDSQUARE" := str "X"]> ∅))
     = best_latlon (<[str "GRIDSQUARE" := str "X"]> ∅).
Proof.
  apply (best_latlon_gridsquare_first _ (str "X")); [reflexivity | discriminate].
Defined.

(** ** From the text to the plotted points *)

Lemma span_forallb (p q : Z -> bool) (s : pystr) :
  forallb p s = true ->
  forallb p (span q s).1 = true /\ forallb p (span q s).2 = true.
Proof.
  intros H. destruct (span q s) as [a b] eqn:E.
  destruct (span_eq _ _ _ _ E) as [_ ->].
  rewrite forallb_app in H. apply andb_true_iff in H. exact H.
Qed.

Lemma forallb_drop (p : Z -> bool) (n : nat) (s : pystr) :
  forallb p s = true -> forallb p (drop n s) = true.
Proof.
  revert n. induction s as [|c s IH]; intros [|n] H; try exact H.
  simpl in H. apply andb_true_iff in H as [_ H]. exact (IH n H).
Qed.

(** The value of a match is a piece of the text matched. *)
Lemma match_field_chars (p : Z -> bool) (s : pystr) (m : field_match) :
  forallb p s = true -> match_field s = Some m ->
  forallb p (m_value m) = true.
Proof.
  intros Hs H. destruct s as [|c r0]; [discriminate|].
  simpl in Hs. apply andb_true_iff in Hs as [_ Hs].
  literal c H. cbn [match_field] in H.
  pose proof (proj2 (span_forallb p is_name_char r0 Hs)) as H1.
  destruct (span is_name_char r0) as [name r1].
  destruct name as [|n0 name]; [discriminate|].
  destruct r1 as [|c1 r2]; [discriminate|].
  cbn [snd] in H1. simpl in H1. apply andb_true_iff in H1 as [_ H2].
  literal c1 H.
  pose proof (proj2 (span_forallb p isdecimal r2 H2)) as H3.
  destruct (span isdecimal r2) as [ds r3].
  destruct ds as [|d0 ds]; [discriminate|].
  destruct r3 as [|c3 r4]; [discriminate|].
  cbn [snd] in H3. simpl in H3. apply andb_true_iff in H3 as [_ H4].
  assert (Hv : forall ntc r6, forallb p r6 = true ->
             (let '(v, _) := span (fun c => negb (c =? 60)) r6 in
              Some {| m_name := n0 :: name; m_length := d0 :: ds; m_value := v;
                      m_size := (1 + length (n0 :: name) + 1 + length (d0 :: ds)
                                 + ntc + 1 + length v)%nat |}) = Some m ->
             forallb p (m_value m) = true).
  { intros ntc r6 H6 E.
    pose proof (proj1 (span_forallb p (fun c => negb (c =? 60)) r6 H6)) as Hval.
    destruct (span (fun c => negb (c =? 60)) r6) as [v r7].
    injection E as <-. exact Hval. }
  literal c3 H.
  - exact (Hv _ _ H4 H).
  - pose proof (proj2 (span_forallb p (fun c => negb (c =? 62)) r4 H4)) as H5.
    destruct (span (fun c => negb (c =? 62)) r4) as [tc r5].
    destruct r5 as [|c5 r6]; [discriminate|].
    cbn [snd] in H5. simpl in H5. apply andb_true_iff in H5 as [_ H6].
    literal c5 H. exact (Hv _ _ H6 H).
Qed.

Lemma finditer_chars (p : Z -> bool) (s : pystr) :
  forallb p s = true ->
  forall skip,
  Forall (fun m => forallb p (m_value m) = true) (finditer_field skip s).
Proof.
  induction s as [|c s IH]; intros Hs skip; [constructor|].
  pose proof Hs as Hs'. simpl in Hs'. apply andb_true_iff in Hs' as [_ Hs'].
  cbn [finditer_field]. destruct skip as [|k]; [|apply IH, Hs'].
  destruct (match_field (c :: s)) as [m|] eqn:E; [|apply IH, Hs'].
  constructor; [exact (match_field_chars _ _ _ Hs E) | apply IH, Hs'].
Qed.

Lemma search_ci_chars (p : Z -> bool) (pat s rest : pystr) :
  forallb p s = true -> search_ci pat s = Some rest ->
  forallb p rest = true.
Proof.
  induction s as [|c s IH]; intros Hs H; cbn [search_ci] in H.
  - destruct (starts_ci pat []); [|discriminate].
    injection H as <-. apply forallb_drop, Hs.
  - destruct (starts_ci pat (c :: s)).
    + injection H as <-. apply forallb_drop, Hs.
    + simpl in Hs. apply andb_true_iff in Hs as [_ Hs]. exact (IH Hs H).
Qed.

Lemma split_ci_chars (p : Z -> bool) (pat s : pystr) :
  forallb p s = true ->
  forall skip, Forall (fun piece => forallb p piece = true) (split_ci pat skip s).
Proof.
  induction s as [|c s IH]; intros Hs skip.
  - repeat constructor.
  - simpl in Hs. apply andb_true_iff in Hs as [Hc Hs].
    cbn [split_ci]. destruct skip as [|k]; [|apply IH, Hs].
    destruct (starts_ci pat (c :: s)).
    + constructor; [reflexivity | apply IH, Hs].
    + pose proof (IH Hs 0%nat) as Hr.
      destruct (split_ci pat 0 s) as [|piece pieces].
      * constructor; [simpl; rewrite Hc; reflexivity | constructor].
      * inversion Hr as [|? ? Hp Hps]; subst.
        constructor; [simpl; rewrite Hc; exact Hp | exact Hps].
Qed.

Lemma store_field_chars (p : Z -> bool) (e : entry) (m : field_match) :
  forallb p (m_value m) = true -> values_in p e ->
  values_in p (store_field e m).
Proof.
  intros Hm He k v. unfold store_field.
  destruct (decide (py_upper (m_name m) = k)) as [<- | Hk].
  - rewrite lookup_insert_eq. intros [= <-].
    apply forallb_strip, forallb_take, Hm.
  - rewrite lookup_insert_ne by exact Hk. apply He.
Qed.

Lemma fold_store_chars (p : Z -> bool) (ms : list field_match) :
  Forall (fun m => forallb p (m_value m) = true) ms ->
  forall e, values_in p e -> values_in p (fold_left store_field ms e).
Proof.
  induction 1 as [|m ms Hm Hms IH]; intros e He; [exact He|].
  cbn [fold_left]. apply IH, store_field_chars; assumption.
Qed.

Lemma parse_record_chars (p : Z -> bool) (records : list entry) (raw : pystr) :
  forallb p raw = true ->
  Forall (values_in p) records ->
  Forall (values_in p) (parse_record records raw).
Proof.
  intros Hraw H. unfold parse_record.
  destruct (negb (truthy (py_strip raw))); [exact H|].
  match goal with
  | |- context [bool_decide ?P] => destruct (bool_decide P)
  end; [exact H|].
  cbn [negb]. apply Forall_app. split; [exact H|].
  constructor; [|constructor].
  apply fold_store_chars; [apply finditer_chars, forallb_strip, Hraw|].
  intros k v Hk. rewrite lookup_empty in Hk. discriminate.
Qed.

Lemma parse_adif_chars (p : Z -> bool) (content : pystr) :
  forallb p content = true -> Forall (values_in p) (parse_adif content).
Proof.
  intros Hc. unfold parse_adif.
  assert (Hd : forallb p (match search_ci eoh content with
                          | Some rest => rest
                          | None => content
                          end) = true).
  { destruct (search_ci eoh content) as [rest|] eqn:E; [|exact Hc].
    exact (search_ci_chars _ _ _ _ Hc E). }
  pose proof (split_ci_chars p eor _ Hd 0%nat) as Hraws.
  revert Hraws.
  generalize (split_ci eor 0
                (match search_ci eoh content with
                 | Some rest => rest
                 | None => content
                 end)).
  intros raws Hraws.
  assert (H : Forall (values_in p) []) by constructor.
  revert H. generalize (@nil entry).
  induction Hraws as [|raw raws Hraw Hraws IH]; intros records H; [exact H|].
  cbn [fold_left]. apply IH, parse_record_chars; assumption.
Qed.

(** X13: The values of the records are pieces of the text: a property that
    every character of the text has, every character of every value
    has. *)
Theorem values_come_from_text (p : Z -> bool) (content : pystr) :
  forallb p content = true ->
  Forall (fun e : entry => forall k v, e !! k = Some v -> forallb p v = true)
         (parse_adif content).
Proof. exact (parse_adif_chars p content). Qed.

Lemma values_come_from_text_witness :
  Forall (fun e : entry =>
            forall k v, e !! k = Some v -> forallb (fun c => c <? 128) v = true)
         (parse_adif (str "<CALL:5>K1ABC<GRIDSQUARE:4>FN20<EOR>")).
Proof. apply values_come_from_text. reflexivity. Defined.

(** [best_latlon] raises only through the conversion of the grid
    square. *)
Lemma best_latlon_ascii (rec : entry) :
  grid_ascii rec = true -> raises rec = false.
Proof.
  unfold grid_ascii, raises, best_latlon. fold (grid_of rec). intros Ha.
  assert (Grid :
    forall T (k : result (option (float * float * pystr)) -> T) (d : T),
    (forall r, k (Ret r) = d) ->
    k (run (_ ← (match grid_of rec with
              | Some g =>
                  if truthy g then
                    pair2 ← call (maidenhead_to_latlon g);
                    match pair2 with
                    | Some pr2 => Return (Some (pr2.1, pr2.2, str "GRID"))
                    | None => Next ()
                    end
                  else Next ()
              | None => Next ()
              end);
         Next None)) = d).
  { intros T k d Hk. destruct (grid_of rec) as [g|]; [|apply Hk].
    destruct (truthy g); [|apply Hk].
    destruct (maidenhead_ascii_ret g Ha) as [r ->].
    destruct r as [[a b]|]; apply Hk. }
  destruct (rec !! str "LAT") as [lat|];
    [|apply (Grid _ (fun r => match r with Raise _ => true | _ => false end));
      reflexivity].
  destruct (rec !! str "LON") as [lon|];
    [|apply (Grid _ (fun r => match r with Raise _ => true | _ => false end));
      reflexivity].
  destruct (truthy lat && truthy lon);
    [|apply (Grid _ (fun r => match r with Raise _ => true | _ => false end));
      reflexivity].
  destruct (parse_latlon lat lon) as [[a b]|];
    [reflexivity
    |apply (Grid _ (fun r => match r with Raise _ => true | _ => false end));
      reflexivity].
Qed.

Lemma build_map_points_total (records : list entry) :
  forallb grid_ascii records = true ->
  exists points skipped,
    build_map_points records = Ret (points, skipped)
    /\ points = omap resolved records
    /\ skipped = Z.of_nat (length (List.filter is_absent records))
    /\ Z.of_nat (length points) + skipped = Z.of_nat (length records).
Proof.
  intros H.
  destruct (build_map_points_returns records) as (pts & sk & E & Hp & Hs & Hl & _).
  - rewrite forallb_forall in *. intros r Hr.
    rewrite (best_latlon_ascii r (H r Hr)). reflexivity.
  - exists pts, sk. auto.
Qed.

(** X14: When the grid square of every record is made of ASCII characters,
    the first loop of [build_map] does not raise: [points] holds the
    records with a coordinate, in input order, [skipped] counts the
    others, and every record is in one of the two. *)
Theorem build_map_points_ascii_grids (records : list entry) :
  forallb grid_ascii records = true ->
  exists points skipped,
    build_map_points records = Ret (points, skipped)
    /\ points = omap resolved records
    /\ skipped = Z.of_nat (length (List.filter is_absent records))
    /\ Z.of_nat (length points) + skipped = Z.of_nat (length records).
Proof. exact (build_map_points_total records). Qed.

Lemma build_map_points_ascii_grids_witness :
  exists points skipped,
    build_map_points
      [ <[str "GRIDSQUARE" := str "FN20"]> ∅;
        <[str "CALL" := str "K1ABC"]> ∅;
        <[str "MY_GRIDSQUARE" := str "1234"]> ∅ ]
    = Ret (points, skipped)
    /\ points = omap resolved
         [ <[str "GRIDSQUARE" := str "FN20"]> ∅;
           <[str "CALL" := str "K1ABC"]> ∅;
           <[str "MY_GRIDSQUARE" := str "1234"]> ∅ ]
    /\ skipped = Z.of_nat (length (List.filter is_absent
         [ <[str "GRIDSQUARE" := str "FN20"]> ∅;
           <[str "CALL" := str "K1ABC"]> (∅ : entry);
           <[str "MY_GRIDSQUARE" := str "1234"]> ∅ ]))
    /\ Z.of_nat (length points) + skipped = 3.
Proof. apply build_map_points_ascii_grids. reflexivity. Defined.

Lemma values_in_grid_ascii (e : entry) :
  values_in (fun c => (0 <=? c) && (c <? 128)) e -> grid_ascii e = true.
Proof.
  intros H. unfold grid_ascii, grid_of, py_or.
  destruct (e !! str "GRIDSQUARE") as [g|] eqn:Eg.
  - destruct (truthy g); [exact (H _ _ Eg)|].
    destruct (e !! str "MY_GRIDSQUARE") as [g'|] eqn:Eg'; [|reflexivity].
    exact (H _ _ Eg').
  - destruct (e !! str "MY_GRIDSQUARE") as [g'|] eqn:Eg'; [|reflexivity].
    exact (H _ _ Eg').
Qed.



(** ** The prefix lookup of dxcc.py *)

(** The loop keeps a pair of the table whose prefix matches and is at
    least as long as every matching prefix seen. *)
Lemma lookup_loop (cs : pystr) (table seen : list (pystr * pystr))
    (best : option (pystr * pystr)) :
  match best with
  | Some b => In b seen /\ longest_prefix seen cs b.1
  | None => forall p n, In (p, n) seen -> startswith cs p = false
  end ->
  match fold_left (lookup_step cs) table best with
  | Some b => In b (seen ++ table) /\ longest_prefix (seen ++ table) cs b.1
  | None => forall p n, In (p, n) (seen ++ table) -> startswith cs p = false
  end.
Proof.
  revert seen best. induction table as [|[pref name] table IH];
    intros seen best H.
  - rewrite app_nil_r. exact H.
  - cbn [fold_left].
    replace (seen ++ (pref, name) :: table)
      with ((seen ++ [(pref, name)]) ++ table)
      by (rewrite <- app_assoc; reflexivity).
    apply IH. unfold lookup_step.
    destruct (startswith cs pref) eqn:Hs; cbn [andb].
    + destruct best as [b|].
      * destruct H as [Hin [Hb Hmax]].
        destruct (Nat.ltb_spec (length b.1) (length pref)) as [Hlt | Hge].
        -- split; [apply in_or_app; right; left; reflexivity|].
           split; [exact Hs|]. intros p n Hp Hsp.
           apply in_app_or in Hp as [Hp | [[= <- <-] | []]].
           ++ specialize (Hmax p n Hp Hsp). cbn [fst]. lia.
           ++ cbn [fst]. lia.
        -- split; [apply in_or_app; left; exact Hin|].
           split; [exact Hb|]. intros p n Hp Hsp.
           apply in_app_or in Hp as [Hp | [[= <- <-] | []]].
           ++ exact (Hmax p n Hp Hsp).
           ++ exact Hge.
      * split; [apply in_or_app; right; left; reflexivity|].
        split; [exact Hs|]. intros p n Hp Hsp.
        apply in_app_or in Hp as [Hp | [[= <- <-] | []]].
        -- rewrite (H p n Hp) in Hsp. discriminate.
        -- cbn [fst]. lia.
    + destruct best as [b|].
      * destruct H as [Hin [Hb Hmax]].
        split; [apply in_or_app; left; exact Hin|].
        split; [exact Hb|]. intros p n Hp Hsp.
        apply in_app_or in Hp as [Hp | [[= <- <-] | []]].
        -- exact (Hmax p n Hp Hsp).
        -- rewrite Hs in Hsp. discriminate.
      * intros p n Hp.
        apply in_app_or in Hp as [Hp | [[= <- <-] | []]].
        -- exact (H p n Hp).
        -- exact Hs.
Qed.

Lemma lookup_in_spec (table : list (pystr * pystr)) (c : pystr) :
  match lookup_in table (Some c) with
  | Some name =>
      c <> []
      /\ exists pref, In (pref, name) table
                      /\ longest_prefix table (py_upper (py_strip c)) pref
  | None =>
      c = [] \/ forall p n, In (p, n) table ->
                  startswith (py_upper (py_strip c)) p = false
  end.
Proof.
  unfold lookup_in. destruct c as [|x c]; [left; reflexivity|].
  cbn [truthy negb].
  pose proof (lookup_loop (py_upper (py_strip (x :: c))) table [] None) as H.
  cbn [app] in H.
  destruct (fold_left (lookup_step (py_upper (py_strip (x :: c)))) table None)
    as [[pref name]|].
  - destruct H as [Hin Hl]; [intros p n []|].
    split; [discriminate|]. exists pref. split; assumption.
  - right. apply H. intros p n [].
Qed.

(** X16: The country [lookup_country] returns belongs to a prefix of the table
    with which the call sign, stripped and in capitals, begins, and no
    prefix of the table with which it begins is longer. *)
Theorem lookup_country_longest_prefix (callsign name : pystr) :
  lookup_country (Some callsign) = Some name ->
  exists pref,
    In (pref, name) PREFIX_COUNTRY
    /\ startswith (py_upper (py_strip callsign)) pref = true
    /\ forall p n, In (p, n) PREFIX_COUNTRY ->
         startswith (py_upper (py_strip callsign)) p = true ->
         (length p <= length pref)%nat.
Proof.
  intros H. pose proof (lookup_in_spec PREFIX_COUNTRY callsign) as S.
  unfold lookup_country in H. rewrite H in S.
  destruct S as (_ & pref & Hin & Hs & Hmax). exists pref. auto.
Qed.

(** GM0ABC begins with G (England) and with GM (Scotland): the longer
    prefix gives the country. *)
Lemma lookup_country_longest_prefix_witness :
  exists pref,
    In (pref, str "Scotland") PREFIX_COUNTRY
    /\ startswith (py_upper (py_strip (str " gm0abc"))) pref = true
    /\ forall p n, In (p, n) PREFIX_COUNTRY ->
         startswith (py_upper (py_strip (str " gm0abc"))) p = true ->
         (length p <= length pref)%nat.
Proof. apply lookup_country_longest_prefix. reflexivity. Defined.

(** X17: [lookup_country] finds no country exactly when the call sign is
    missing or empty, or begins with no prefix of the table. *)
Theorem lookup_country_none (callsign : option pystr) :
  lookup_country callsign = None <->
  match callsign with
  | None => True
  | Some c =>
      c = [] \/ forall p n, In (p, n) PREFIX_COUNTRY ->
                  startswith (py_upper (py_strip c)) p = false
  end.
Proof.
  destruct callsign as [c|]; [|split; reflexivity || trivial].
  pose proof (lookup_in_spec PREFIX_COUNTRY c) as S. unfold lookup_country.
  destruct (lookup_in PREFIX_COUNTRY (Some c)) as [name|].
  - split; [discriminate|].
    destruct S as (Hne & pref & Hin & Hs & _). intros [-> | Hno].
    + congruence.
    + rewrite (Hno _ _ Hin) in Hs. discriminate.
  - split; [intros _; exact S | reflexivity].
Qed.

Lemma fold_lookup_empty (table : list (pystr * pystr)) :
  Forall (fun item => item.1 <> []) table ->
  fold_left (lookup_step []) table None = None.
Proof.
  induction 1 as [|[pref name] table Hp _ IH]; [reflexivity|].
  cbn [fold_left]. unfold lookup_step at 2.
  destruct pref; [cbn [fst] in Hp; congruence|]. exact IH.
Qed.

(** X18: [lookup_country] does not tell a call sign from the same call sign
    stripped and in capitals. *)
Theorem lookup_country_case_and_space (callsign : pystr) :
  lookup_country (Some callsign)
  = lookup_country (Some (py_upper (py_strip callsign))).
Proof.
  unfold lookup_country, lookup_in.
  pose proof (grid_norm_idem callsign) as Hn. unfold grid_norm in Hn.
  rewrite Hn. clear Hn.
  assert (He : fold_left (lookup_step []) PREFIX_COUNTRY None = None).
  { apply fold_lookup_empty. repeat constructor; discriminate. }
  generalize dependent PREFIX_COUNTRY. intros table He.
  destruct callsign as [|x c]; [reflexivity|]. cbn [truthy negb].
  destruct (py_upper (py_strip (x :: c))) as [|y n]; cbn [truthy negb].
  - rewrite He. reflexivity.
  - reflexivity.
Qed.

(** ** The home location and the centre of the map *)

(** X19: A home grid square that is not empty decides alone: the latitude and
    the longitude given beside it are not looked at, be they out of
    range. *)
Theorem home_grid_first (g : pystr) (home_lat home_lon : option float) :
  g <> [] ->
  home_latlon_of (Some g) home_lat home_lon = home_latlon_of (Some g) None None.
Proof.
  intros Hg. unfold home_latlon_of. cbn [truthy_opt].
  rewrite (truthy_true _ Hg). reflexivity.
Qed.

Lemma home_grid_first_witness :
  home_latlon_of (Some (str "FN20")) (Some 95%float) None
  = home_latlon_of (Some (str "FN20")) None None.
Proof. apply home_grid_first. discriminate. Defined.

(** X20: A home latitude without a longitude, or a longitude without a
    latitude, is dropped without a message: the outcome is that of
    giving neither. *)
Theorem home_needs_both (home_grid : option pystr) (v : float) :
  home_latlon_of home_grid (Some v) None = home_latlon_of home_grid None None
  /\ home_latlon_of home_grid None (Some v) = home_latlon_of home_grid None None.
Proof. unfold home_latlon_of. destruct (truthy_opt home_grid); split; reflexivity. Qed.

(** X21: A home location that comes from [--home-lat] and [--home-lon] is the
    pair given, within the valid ranges and not NaN. *)
Theorem home_latlon_checked (home_grid : option pystr)
    (home_lat home_lon : option float) (lat lon : float) :
  truthy_opt home_grid = false ->
  home_latlon_of home_grid home_lat home_lon = Done (Some (lat, lon)) ->
  home_lat = Some lat /\ home_lon = Some lon
  /\ in_range true lat = true /\ in_range false lon = true
  /\ lat <> nan /\ lon <> nan.
Proof.
  intros Hg H. unfold home_latlon_of in H. rewrite Hg in H.
  destruct home_lat as [a|]; [|discriminate H].
  destruct home_lon as [b|]; [|discriminate H].
  destruct (in_range true a) eqn:Ra; [|discriminate H].
  destruct (in_range false b) eqn:Rb; [|discriminate H].
  injection H as <- <-.
  destruct (in_range_finite _ _ Ra) as [? _].
  destruct (in_range_finite _ _ Rb) as [? _].
  repeat split; assumption.
Qed.

Lemma home_latlon_checked_witness :
  Some 40.5%float = Some 40.5%float /\ Some (-74)%float = Some (-74)%float
  /\ in_range true 40.5%float = true /\ in_range false (-74)%float = true
  /\ 40.5%float <> nan /\ (-74)%float <> nan.
Proof.
  apply (home_latlon_checked (Some []) (Some 40.5%float) (Some (-74)%float));
    reflexivity.
Defined.

Lemma build_map_start_cases (sum : list float -> num) (records : list entry)
    (home : option (float * float)) :
  match build_map_points records with
  | Raise e => build_map_start sum records home = Stop (Uncaught e)
  | Ret (points, skipped) =>
      match home with
      | Some center =>
          build_map_start sum records home = Done (points, skipped, center)
      | None =>
          if bool_decide (points = []) then
            exists msg, build_map_start sum records home = Stop (SystemExit msg)
          else
            exists center,
              build_map_start sum records home = Done (points, skipped, center)
      end
  end.
Proof.
  unfold build_map_start.
  destruct (build_map_points records) as [[points skipped]|e]; [|reflexivity].
  destruct home as [center|].
  - rewrite (bool_decide_eq_true_2 (is_Some (Some center))) by eauto.
    rewrite andb_false_r. reflexivity.
  - rewrite (bool_decide_eq_false_2 (is_Some None)) by (apply is_Some_None).
    destruct points as [|p points].
    + rewrite bool_decide_eq_true_2 by reflexivity.
      rewrite bool_decide_eq_false_2 by congruence. eexists. reflexivity.
    + rewrite (bool_decide_eq_false_2 (p :: points = [])) by discriminate.
      rewrite bool_decide_eq_true_2 by discriminate. cbn [negb andb].
      unfold truediv.
      replace (Z.of_nat (length (p :: points)) =? 0) with false
        by (symmetry; apply Z.eqb_neq; cbn [length]; lia).
      eexists. reflexivity.
Qed.

(** X22: The start of [build_map] never divides by zero.  It leaves with
    [SystemExit] exactly when there is no home location and the first
    loop ends without a point, and with an exception exactly when the
    first loop raises it. *)
Theorem build_map_start_outcomes (sum : list float -> num)
    (records : list entry) (home : option (float * float)) :
  build_map_start sum records home <> Stop ZeroDivisionError
  /\ ((exists msg, build_map_start sum records home = Stop (SystemExit msg))
      <-> home = None
          /\ exists skipped, build_map_points records = Ret ([], skipped))
  /\ (forall e, build_map_start sum records home = Stop (Uncaught e)
                <-> build_map_points records = Raise e).
Proof.
  pose proof (build_map_start_cases sum records home) as C.
  destruct (build_map_points records) as [[points skipped]|e0].
  - destruct home as [center|].
    + rewrite C. split; [discriminate|]. split.
      * split; [intros [msg H]; discriminate H | intros [H _]; discriminate H].
      * intros e. split; discriminate.
    + destruct points as [|p points].
      * rewrite bool_decide_eq_true_2 in C by reflexivity.
        destruct C as [msg C]. rewrite C. split; [discriminate|]. split.
        -- split; [intros _; split; [reflexivity | eauto] | intros _; eauto].
        -- intros e. split; discriminate.
      * rewrite bool_decide_eq_false_2 in C by discriminate.
        destruct C as [center C]. rewrite C. split; [discriminate|]. split.
        -- split; [intros [msg H]; discriminate H
                  | intros [_ [sk H]]; discriminate H].
        -- intros e. split; discriminate.
  - rewrite C. split; [discriminate|]. split.
    + split; [intros [msg H]; discriminate H
             | intros [_ [sk H]]; discriminate H].
    + intros e. split; intros H; congruence.
Qed.



(** ** The statistics panel *)

Lemma total_of_count_up (k : pystr) (d : gmap pystr Z) :
  total_of (count_up k d) = total_of d + 1.
Proof.
  unfold total_of, count_up.
  destruct (d !! k) as [v|] eqn:E; cbn [default from_option id].
  - rewrite <- (insert_delete_eq d k (v + 1)).
    rewrite map_fold_insert_L; [| intros; cbv beta; lia | apply lookup_delete_eq].
    rewrite (map_fold_delete_L _ 0 k v d); [| intros; cbv beta; lia | exact E].
    lia.
  - rewrite map_fold_insert_L; [cbv beta; lia | intros; cbv beta; lia | exact E].
Qed.

Lemma stats_loop (key : pystr) (entries : list entry) :
  forall (d : gmap pystr Z) (pick : gmap pystr Z * gmap pystr Z -> gmap pystr Z)
         (st : gmap pystr Z * gmap pystr Z),
  (forall s e, pick (count_step s e) = count_up (or_other (attr key e)) (pick s)) ->
  pick st = d ->
  total_of (pick (fold_left count_step entries st))
  = total_of d + Z.of_nat (length entries)
  /\ forall label,
       default 0 (pick (fold_left count_step entries st) !! label)
       = default 0 (d !! label) + labelled key label entries.
Proof.
  induction entries as [|e entries IH]; intros d pick st Hpick Hd.
  - cbn [fold_left length]. rewrite Hd. unfold labelled. cbn.
    split; [lia | intros; cbv beta; lia].
  - cbn [fold_left].
    destruct (IH (count_up (or_other (attr key e)) d) pick (count_step st e) Hpick)
      as [Ht Hl].
    { rewrite Hpick, Hd. reflexivity. }
    split.
    + rewrite Ht, total_of_count_up. cbn [length]. lia.
    + intros label. rewrite Hl. unfold labelled, count_up.
      cbn [List.filter].
      destruct (bool_decide_reflect (or_other (attr key e) = label)) as [-> | Hne].
      * rewrite lookup_insert_eq. cbn [default from_option id length]. lia.
      * rewrite lookup_insert_ne by exact Hne. lia.
Qed.

Lemma stats_present (key : pystr) (entries : list entry) :
  forall (pick : gmap pystr Z * gmap pystr Z -> gmap pystr Z)
         (st : gmap pystr Z * gmap pystr Z),
  (forall s e, pick (count_step s e) = count_up (or_other (attr key e)) (pick s)) ->
  (forall label n, pick st !! label = Some n -> 1 <= n) ->
  forall label n, pick (fold_left count_step entries st) !! label = Some n ->
                  1 <= n.
Proof.
  induction entries as [|e entries IH]; intros pick st Hpick Hst; [exact Hst|].
  cbn [fold_left]. apply (IH pick _ Hpick).
  intros label n. rewrite Hpick. unfold count_up.
  destruct (decide (or_other (attr key e) = label)) as [-> | Hne].
  - rewrite lookup_insert_eq. intros [= <-].
    destruct (pick st !! label) as [v|] eqn:E; cbn [default from_option id];
      [|lia].
    specialize (Hst _ _ E). lia.
  - rewrite lookup_insert_ne by exact Hne. apply Hst.
Qed.

(** X24: In the statistics panel the counts by band add up to the total
    number of QSOs, and so do the counts by mode.  A label is listed
    exactly when a record carries it, with the number of those
    records. *)
Theorem stats_counts_add_up (entries : list entry) :
  let total := Z.of_nat (length entries) in
  let '(by_band, by_mode) := stats_counts entries in
  total_of by_band = total /\ total_of by_mode = total
  /\ (forall label,
        by_band !! label
        = if labelled (str "BAND") label entries =? 0 then None
          else Some (labelled (str "BAND") label entries))
  /\ (forall label,
        by_mode !! label
        = if labelled (str "MODE") label entries =? 0 then None
          else Some (labelled (str "MODE") label entries)).
Proof.
  cbv zeta. unfold stats_counts.
  assert (P1 : forall s e, fst (count_step s e)
                           = count_up (or_other (attr (str "BAND") e)) (fst s))
    by (intros [a b] e; reflexivity).
  assert (P2 : forall s e, snd (count_step s e)
                           = count_up (or_other (attr (str "MODE") e)) (snd s))
    by (intros [a b] e; reflexivity).
  destruct (stats_loop (str "BAND") entries ∅ fst (∅, ∅) P1 eq_refl) as [T1 L1].
  destruct (stats_loop (str "MODE") entries ∅ snd (∅, ∅) P2 eq_refl) as [T2 L2].
  pose proof (stats_present (str "BAND") entries fst (∅, ∅) P1) as N1.
  pose proof (stats_present (str "MODE") entries snd (∅, ∅) P2) as N2.
  destruct (fold_left count_step entries (∅, ∅)) as [by_band by_mode].
  cbn [fst snd] in *.
  assert (Hsome : forall (d : gmap pystr Z) (c : Z) label,
            (forall n, d !! label = Some n -> 1 <= n) ->
            default 0 (d !! label) = c ->
            d !! label = if c =? 0 then None else Some c).
  { intros d c label Hn Hc. destruct (d !! label) as [n|] eqn:E; cbn in Hc.
    - specialize (Hn n eq_refl). subst c.
      destruct (Z.eqb_spec n 0); [lia | reflexivity].
    - subst c. reflexivity. }
  split; [rewrite T1; reflexivity|]. split; [rewrite T2; reflexivity|].
  split; intros label; apply Hsome.
  - intros n. apply N1. intros l k Hk. rewrite lookup_empty in Hk. discriminate.
  - rewrite L1. reflexivity.
  - intros n. apply N2. intros l k Hk. rewrite lookup_empty in Hk. discriminate.
  - rewrite L2. reflexivity.
Qed.

(** ** Markers, layers and legend *)

Lemma add_group_loop (key : pystr) (points : list (float * float * entry)) :
  forall groups,
  NoDup groups ->
  NoDup (fold_left (add_group key) points groups)
  /\ forall label,
       label ∈ fold_left (add_group key) points groups
       <-> label ∈ groups
           \/ exists p, p ∈ points /\ or_other (attr key p.2) = label.
Proof.
  induction points as [|p points IH]; intros groups Hnd.
  - cbn [fold_left]. split; [exact Hnd|]. intros label. split; [auto|].
    intros [H | (p & Hp & _)]; [exact H|]. apply elem_of_nil in Hp as [].
  - cbn [fold_left].
    assert (Hstep : NoDup (add_group key groups p)
                    /\ forall label, label ∈ add_group key groups p
                         <-> label ∈ groups \/ or_other (attr key p.2) = label).
    { unfold add_group.
      destruct (bool_decide_reflect (or_other (attr key p.2) ∈ groups)) as [Hin | Hout].
      - split; [exact Hnd|]. intros label. split; [auto|].
        intros [H | <-]; assumption.
      - split.
        + apply NoDup_app. split; [exact Hnd|]. split.
          * intros x Hx Hx'. apply list_elem_of_singleton in Hx'. subst x.
            contradiction.
          * apply NoDup_singleton.
        + intros label. rewrite elem_of_app, list_elem_of_singleton.
          split; intros [H | H]; auto. }
    destruct Hstep as [Hnd' Hmem]. destruct (IH _ Hnd') as [IH1 IH2].
    split; [exact IH1|]. intros label. rewrite IH2, Hmem. split.
    + intros [[H | H] | (q & Hq & Hl)]; [auto | right | right].
      * exists p. split; [apply list_elem_of_here | exact H].
      * exists q. split; [apply list_elem_of_further, Hq | exact Hl].
    + intros [H | (q & Hq & Hl)]; [auto|].
      apply elem_of_cons in Hq as [-> | Hq]; [auto|].
      right. exists q. auto.
Qed.

Lemma plot_step_fields (ubl uml cl : bool) (bg mg : list pystr) (st : plot)
    (p : float * float * entry) :
  by_band_colors (plot_step ubl uml cl bg mg st p)
  = legend_step (str "BAND") BAND_COLORS (by_band_colors st) p
  /\ by_mode_colors (plot_step ubl uml cl bg mg st p)
     = legend_step (str "MODE") MODE_COLORS (by_mode_colors st) p
  /\ heat_data_all (plot_step ubl uml cl bg mg st p) = heat_data_all st ++ [p.1]
  /\ heat_by_band (plot_step ubl uml cl bg mg st p)
     = heat_add (or_other (attr (str "BAND") p.2)) p.1 (heat_by_band st)
  /\ heat_by_mode (plot_step ubl uml cl bg mg st p)
     = heat_add (or_other (attr (str "MODE") p.2)) p.1 (heat_by_mode st).
Proof. destruct p as [[lat lon] rec]. repeat split. Qed.

(** With the groups of all the points at hand, the marker of a point is
    the one [marker_of] describes. *)
Lemma plot_step_marker (lb lm cl : bool) (bg mg : list pystr) (st : plot)
    (p : float * float * entry) :
  (lb = true -> or_other (attr (str "BAND") p.2) ∈ bg) ->
  (lb = false -> lm = true -> or_other (attr (str "MODE") p.2) ∈ mg) ->
  markers (plot_step lb (lm && negb lb) cl bg mg st p)
  = markers st ++ [marker_of lb lm cl p].
Proof.
  intros Hb Hm. destruct p as [[lat lon] rec]. unfold plot_step, marker_of.
  cbn [markers fst snd]. f_equal. f_equal.
  unfold color_of, container_of. cbn [fst snd] in *.
  destruct lb; cbn [negb andb orb].
  - rewrite andb_false_r. rewrite (bool_decide_eq_true_2 _ (Hb eq_refl)).
    destruct cl; reflexivity.
  - rewrite andb_true_r. destruct lm; cbn [negb andb orb].
    + rewrite (bool_decide_eq_true_2 _ (Hm eq_refl eq_refl)).
      destruct cl; reflexivity.
    + destruct cl; reflexivity.
Qed.

Lemma plot_loop (lb lm cl : bool) (bg mg : list pystr)
    (points : list (float * float * entry)) :
  (lb = true -> forall p, p ∈ points -> or_other (attr (str "BAND") p.2) ∈ bg) ->
  (lb = false -> lm = true ->
   forall p, p ∈ points -> or_other (attr (str "MODE") p.2) ∈ mg) ->
  forall st,
  let st' := fold_left (plot_step lb (lm && negb lb) cl bg mg) points st in
  markers st' = markers st ++ map (marker_of lb lm cl) points
  /\ by_band_colors st'
     = fold_left (legend_step (str "BAND") BAND_COLORS) points (by_band_colors st)
  /\ by_mode_colors st'
     = fold_left (legend_step (str "MODE") MODE_COLORS) points (by_mode_colors st)
  /\ heat_data_all st' = heat_data_all st ++ map fst points
  /\ heat_by_band st'
     = fold_left (fun d p => heat_add (or_other (attr (str "BAND") p.2)) p.1 d)
                 points (heat_by_band st)
  /\ heat_by_mode st'
     = fold_left (fun d p => heat_add (or_other (attr (str "MODE") p.2)) p.1 d)
                 points (heat_by_mode st).
Proof.
  induction points as [|p points IH]; intros Hb Hm st; cbv zeta.
  - cbn [fold_left map]. rewrite !app_nil_r. repeat split.
  - cbn [fold_left map].
    destruct (IH (fun E q Hq => Hb E q (list_elem_of_further _ _ _ Hq))
                 (fun E E' q Hq => Hm E E' q (list_elem_of_further _ _ _ Hq))
                 (plot_step lb (lm && negb lb) cl bg mg st p))
      as (I1 & I2 & I3 & I4 & I5 & I6).
    destruct (plot_step_fields lb (lm && negb lb) cl bg mg st p)
      as (F2 & F3 & F4 & F5 & F6).
    rewrite I1, I2, I3, I4, I5, I6, F2, F3, F4, F5, F6.
    rewrite (plot_step_marker lb lm cl bg mg st p
               (fun E => Hb E p (list_elem_of_here _ _))
               (fun E E' => Hm E E' p (list_elem_of_here _ _))).
    rewrite <- !app_assoc. repeat split.
Qed.

Lemma build_map_plot_loop (lb lm cl : bool)
    (points : list (float * float * entry)) :
  let st := (build_map_plot lb lm cl points).1.2 in
  markers st = map (marker_of lb lm cl) points
  /\ by_band_colors st
     = fold_left (legend_step (str "BAND") BAND_COLORS) points []
  /\ by_mode_colors st
     = fold_left (legend_step (str "MODE") MODE_COLORS) points []
  /\ heat_data_all st = map fst points
  /\ heat_by_band st
     = fold_left (fun d p => heat_add (or_other (attr (str "BAND") p.2)) p.1 d)
                 points ∅
  /\ heat_by_mode st
     = fold_left (fun d p => heat_add (or_other (attr (str "MODE") p.2)) p.1 d)
                 points ∅.
Proof.
  unfold build_map_plot. cbn [fst snd]. apply (plot_loop lb lm cl).
  - intros -> p Hp.
    apply (proj2 (add_group_loop (str "BAND") points [] (NoDup_nil_2))).
    right. exists p. auto.
  - intros -> -> p Hp. cbn [negb andb].
    apply (proj2 (add_group_loop (str "MODE") points [] (NoDup_nil_2))).
    right. exists p. auto.
Qed.

(** X25: Every point gets one marker, in the order of the points, at the
    location of the point, and every marker is added to a container:
    with layers by band to the group of its band, else with layers by
    mode to the group of its mode (in either case to the cluster of the
    group when clustering is on), else to the cluster or the group of
    all QSOs.  The groups the markers need have all been created. *)
Theorem markers_all_placed (layers_by_band layers_by_mode cluster : bool)
    (points : list (float * float * entry)) :
  let '(_, _, st, _) :=
    build_map_plot layers_by_band layers_by_mode cluster points in
  markers st = map (marker_of layers_by_band layers_by_mode cluster) points.
Proof.
  pose proof (build_map_plot_loop layers_by_band layers_by_mode cluster points)
    as H. cbv zeta in H.
  destruct (build_map_plot layers_by_band layers_by_mode cluster points)
    as [[[bg mg] st] legend].
  exact (proj1 H).
Qed.

(** X26: The groups created are those of the labels the points carry, each
    once: band groups only with layers by band, mode groups only with
    layers by mode and not by band. *)
Theorem groups_of_the_points (layers_by_band layers_by_mode cluster : bool)
    (points : list (float * float * entry)) :
  let '(band_groups, mode_groups, _, _) :=
    build_map_plot layers_by_band layers_by_mode cluster points in
  NoDup band_groups /\ NoDup mode_groups
  /\ (forall label,
        label ∈ band_groups
        <-> layers_by_band = true
            /\ exists p, p ∈ points
                         /\ or_other (attr (str "BAND") p.2) = label)
  /\ (forall label,
        label ∈ mode_groups
        <-> layers_by_band = false /\ layers_by_mode = true
            /\ exists p, p ∈ points
                         /\ or_other (attr (str "MODE") p.2) = label).
Proof.
  unfold build_map_plot.
  destruct (add_group_loop (str "BAND") points [] NoDup_nil_2) as [B1 B2].
  destruct (add_group_loop (str "MODE") points [] NoDup_nil_2) as [M1 M2].
  assert (Hnil : forall label : pystr, label ∈ @nil pystr <-> False)
    by (intros; apply elem_of_nil).
  destruct layers_by_band, layers_by_mode; cbn [negb andb];
    (split; [first [exact B1 | apply NoDup_nil_2]|]);
    (split; [first [exact M1 | apply NoDup_nil_2]|]);
    split; intros label;
    rewrite ?B2, ?M2, ?Hnil; intuition (try discriminate).
Qed.

Lemma legend_loop (key : pystr) (table : list (pystr * pystr))
    (points : list (float * float * entry)) :
  forall l,
  NoDup (map fst l) ->
  (forall a c, (a, c) ∈ l -> a <> [] /\ c = dict_get table a DEFAULT_COLOR) ->
  let l' := fold_left (legend_step key table) points l in
  NoDup (map fst l')
  /\ forall a c,
       (a, c) ∈ l'
       <-> (a, c) ∈ l
           \/ (a <> [] /\ c = dict_get table a DEFAULT_COLOR
               /\ exists p, p ∈ points /\ attr key p.2 = a).
Proof.
  induction points as [|p points IH]; intros l Hnd Hl; cbv zeta.
  - cbn [fold_left]. split; [exact Hnd|]. intros a c. split; [auto|].
    intros [H | (_ & _ & q & Hq & _)]; [exact H|]. apply elem_of_nil in Hq as [].
  - cbn [fold_left].
    assert (Hstep :
      NoDup (map fst (legend_step key table l p))
      /\ forall a c, (a, c) ∈ legend_step key table l p
           <-> (a, c) ∈ l
               \/ (a <> [] /\ c = dict_get table a DEFAULT_COLOR
                   /\ attr key p.2 = a)).
    { unfold legend_step. destruct (attr key p.2) as [|x a0] eqn:Ea.
      - cbn [truthy]. split; [exact Hnd|]. intros a c. split; [auto|].
        intros [H | (Hne & _ & <-)]; [exact H | congruence].
      - cbn [truthy]. unfold add_once.
        destruct (bool_decide_reflect
                    ((x :: a0, dict_get table (x :: a0) DEFAULT_COLOR) ∈ l))
          as [Hin | Hout].
        + split; [exact Hnd|]. intros a c. split; [auto|].
          intros [H | (_ & -> & <-)]; assumption.
        + split.
          * rewrite map_app. apply NoDup_app. split; [exact Hnd|]. split.
            -- intros y Hy Hy'. cbn in Hy'.
               apply list_elem_of_singleton in Hy'. subst y.
               apply list_elem_of_fmap in Hy as ([a c] & Ha & Hac).
               cbn in Ha. subst a.
               destruct (Hl _ _ Hac) as [_ ->]. contradiction.
            -- apply NoDup_singleton.
          * intros a c. rewrite elem_of_app, list_elem_of_singleton. split.
            -- intros [H | [= -> ->]]; [auto|]. right.
               split; [discriminate|]. split; reflexivity.
            -- intros [H | (_ & -> & <-)]; [auto|]. right. reflexivity. }
    destruct Hstep as [Hnd' Hmem].
    destruct (IH (legend_step key table l p) Hnd') as [IH1 IH2].
    { intros a c Hac. apply Hmem in Hac as [Hac | (Hne & Hc & _)];
        [exact (Hl _ _ Hac) | split; assumption]. }
    split; [exact IH1|]. intros a c. rewrite IH2, Hmem. split.
    + intros [[H | (Hne & Hc & Ha)] | (Hne & Hc & q & Hq & Ha)]; [auto | right | right];
        (split; [exact Hne|]); (split; [exact Hc|]).
      * exists p. split; [apply list_elem_of_here | exact Ha].
      * exists q. split; [apply list_elem_of_further, Hq | exact Ha].
    + intros [H | (Hne & Hc & q & Hq & Ha)]; [auto|].
      apply elem_of_cons in Hq as [-> | Hq]; [left; right; auto|].
      right. split; [exact Hne|]. split; [exact Hc|]. exists q. auto.
Qed.

(** X27: The legend shown is about what the colours of the markers show: the
    modes when the markers are grouped in layers, the bands otherwise.
    It lists every label once; it holds the label and the colour of every
    marker whose band (or mode) is not empty, and nothing else. *)
Theorem legend_matches_markers (layers_by_band layers_by_mode cluster : bool)
    (points : list (float * float * entry)) :
  let '(_, _, st, (legend, title)) :=
    build_map_plot layers_by_band layers_by_mode cluster points in
  title = (if layers_by_band || layers_by_mode then str "Modes"
           else str "Bands")
  /\ NoDup (map fst legend)
  /\ (forall m, m ∈ markers st -> legend_attr title (mk_rec m) <> [] ->
        (legend_attr title (mk_rec m), mk_color m) ∈ legend)
  /\ (forall label color, (label, color) ∈ legend ->
        label <> []
        /\ exists m, m ∈ markers st
                     /\ legend_attr title (mk_rec m) = label
                     /\ mk_color m = color).
Proof.
  pose proof (build_map_plot_loop layers_by_band layers_by_mode cluster points)
    as H. cbv zeta in H.
  assert (Hleg : (build_map_plot layers_by_band layers_by_mode cluster points).2
                 = let st := (build_map_plot layers_by_band layers_by_mode
                                cluster points).1.2 in
                   if layers_by_band || layers_by_mode
                   then (by_mode_colors st, str "Modes")
                   else (by_band_colors st, str "Bands")).
  { unfold build_map_plot. cbn [fst snd].
    destruct layers_by_band, layers_by_mode; reflexivity. }
  destruct (build_map_plot layers_by_band layers_by_mode cluster points)
    as [[[bg mg] st] [legend title]].
  cbn [fst snd] in H, Hleg. destruct H as (Hm & Hb & Hmo & _).
  assert (Inil : forall (table : list (pystr * pystr)) a c,
            (a, c) ∈ @nil (pystr * pystr) ->
            a <> [] /\ c = dict_get table a DEFAULT_COLOR).
  { intros table a c Hac. apply elem_of_nil in Hac as []. }
  destruct (legend_loop (str "BAND") BAND_COLORS points [] NoDup_nil_2
              (Inil BAND_COLORS)) as [B1 B2].
  destruct (legend_loop (str "MODE") MODE_COLORS points [] NoDup_nil_2
              (Inil MODE_COLORS)) as [M1 M2].
  rewrite <- Hb in B1, B2. rewrite <- Hmo in M1, M2. rewrite Hm.
  assert (Hmk : forall m, m ∈ map (marker_of layers_by_band layers_by_mode cluster) points
                  <-> exists p, p ∈ points
                                /\ m = marker_of layers_by_band layers_by_mode cluster p).
  { intros m. rewrite list_elem_of_fmap. split; intros (p & A & B); eauto. }
  destruct (layers_by_band || layers_by_mode) eqn:Hl;
    injection Hleg as -> ->; (split; [reflexivity|]).
  - split; [exact M1|]. unfold legend_attr.
    rewrite bool_decide_eq_true_2 by reflexivity. split.
    + intros m Hmm Hne. apply Hmk in Hmm as (p & Hp & ->).
      unfold marker_of in *. cbn [mk_rec mk_color] in *.
      unfold color_of. rewrite Hl. apply M2. right.
      split; [exact Hne|]. split; [reflexivity|]. exists p. auto.
    + intros label color Hin.
      apply M2 in Hin as [Hin | (Hne & -> & p & Hp & <-)];
        [apply elem_of_nil in Hin as []|].
      split; [exact Hne|].
      exists (marker_of layers_by_band layers_by_mode cluster p).
      split; [apply Hmk; eauto|]. unfold marker_of. cbn [mk_rec mk_color].
      unfold color_of. rewrite Hl. split; reflexivity.
  - split; [exact B1|]. unfold legend_attr.
    rewrite bool_decide_eq_false_2 by discriminate. split.
    + intros m Hmm Hne. apply Hmk in Hmm as (p & Hp & ->).
      unfold marker_of in *. cbn [mk_rec mk_color] in *.
      unfold color_of. rewrite Hl. apply B2. right.
      split; [exact Hne|]. split; [reflexivity|]. exists p. auto.
    + intros label color Hin.
      apply B2 in Hin as [Hin | (Hne & -> & p & Hp & <-)];
        [apply elem_of_nil in Hin as []|].
      split; [exact Hne|].
      exists (marker_of layers_by_band layers_by_mode cluster p).
      split; [apply Hmk; eauto|]. unfold marker_of. cbn [mk_rec mk_color].
      unfold color_of. rewrite Hl. split; reflexivity.
Qed.

Lemma heat_loop (key : pystr) (points : list (float * float * entry)) :
  forall (d : gmap pystr (list (float * float))) label,
  default [] (fold_left (fun d p => heat_add (or_other (attr key p.2)) p.1 d)
                        points d !! label)
  = default [] (d !! label)
    ++ map fst (List.filter
                  (fun p => bool_decide (or_other (attr key p.2) = label))
                  points).
Proof.
  induction points as [|p points IH]; intros d label.
  - cbn [fold_left List.filter map]. rewrite app_nil_r. reflexivity.
  - cbn [fold_left List.filter]. rewrite IH. unfold heat_add.
    destruct (bool_decide_reflect (or_other (attr key p.2) = label)) as [-> | Hne].
    + rewrite lookup_insert_eq. cbn [default from_option id map].
      rewrite <- app_assoc. reflexivity.
    + rewrite lookup_insert_ne by exact Hne. reflexivity.
Qed.

(** X28: The heat maps: the one of all QSOs holds the location of every
    point, in order; the one of a band (of a mode) holds the locations
    of the points that carry this band (this mode), in order, where a
    point without band (mode) counts under OTHER. *)
Theorem heat_by_label (layers_by_band layers_by_mode cluster : bool)
    (points : list (float * float * entry)) (label : pystr) :
  let '(_, _, st, _) :=
    build_map_plot layers_by_band layers_by_mode cluster points in
  heat_data_all st = map fst points
  /\ default [] (heat_by_band st !! label)
     = map fst (List.filter
         (fun p => bool_decide (or_other (attr (str "BAND") p.2) = label))
         points)
  /\ default [] (heat_by_mode st !! label)
     = map fst (List.filter
         (fun p => bool_decide (or_other (attr (str "MODE") p.2) = label))
         points).
Proof.
  pose proof (build_map_plot_loop layers_by_band layers_by_mode cluster points)
    as H. cbv zeta in H.
  destruct (build_map_plot layers_by_band layers_by_mode cluster points)
    as [[[bg mg] st] legend].
  cbn [fst snd] in H. destruct H as (_ & _ & _ & H4 & H5 & H6).
  split; [exact H4|]. rewrite H5, H6, !heat_loop. split; reflexivity.
Qed.
